(** * website-fetcher: admission, path reconstruction, extraction, reports

    A shallow embedding of the crawl orchestrator ([crawler.ts]) and of the
    page extractor and report generators ([extractor.ts]).

    Conventions.
    - A JavaScript string is a [string]; one [ascii] stands for one code
      unit, so [length], [slice] and [substring] count what the source's
      [.length], [.slice] and [.substring] count.
    - The WHATWG [URL] class, [JSON.parse], [cheerio] and the file system are
      libraries the program calls.  They appear as section variables (the
      URL parser, the JSON parser, the HTML loader) or as the recorded
      outcomes of one run (the [World]).  A constructor that throws is an
      [option] with [None], a call that may throw is an [outcome]. *)

From Stdlib Require Import String Ascii List Bool Arith ZArith Lia.
From Stdlib Require Import Sorted Permutation DecimalString.
Import ListNotations.

Local Open Scope list_scope.
Local Open Scope string_scope.

Set Implicit Arguments.

(** List concatenation, kept apart from the [++] of strings. *)
Local Infix "+++" := app (right associativity, at level 60).

(* ================================================================= *)
(** ** JavaScript string primitives used by the source *)

Module JS.

(** [s.startsWith(p)] *)
Definition startsWith (s p : string) : bool := String.prefix p s.

(** [s.slice(n)] for [0 <= n]: the string without its first [n] code
    units, empty when [n] exceeds the length. *)
Fixpoint slice (s : string) (n : nat) : string :=
  match n, s with
  | O, _ => s
  | S _, EmptyString => EmptyString
  | S n', String _ t => slice t n'
  end.

(** [s.endsWith(p)] *)
Definition endsWith (s p : string) : bool :=
  (String.length p <=? String.length s)%nat
  && (slice s (String.length s - String.length p) =? p).

(** [s.includes(p)]: [p] occurs at some position of [s]. *)
Fixpoint includes (s p : string) : bool :=
  startsWith s p ||
  match s with
  | EmptyString => false
  | String _ t => includes t p
  end.

(** White space and line terminators of ECMAScript below U+0100:
    TAB, LF, VT, FF, CR, SPACE and NBSP. *)
Definition isWhiteSpace (c : ascii) : bool :=
  let n := nat_of_ascii c in
  (((9 <=? n) && (n <=? 13)) || (n =? 32) || (n =? 160))%nat.

Fixpoint trimStart (s : string) : string :=
  match s with
  | EmptyString => EmptyString
  | String c t => if isWhiteSpace c then trimStart t else s
  end.

Fixpoint trimEnd (s : string) : string :=
  match s with
  | EmptyString => EmptyString
  | String c t =>
      match trimEnd t with
      | EmptyString => if isWhiteSpace c then EmptyString else String c EmptyString
      | t' => String c t'
      end
  end.

(** [s.trim()] *)
Definition trim (s : string) : string := trimEnd (trimStart s).

(** Truthiness of a string: the empty string is falsy. *)
Definition truthy (s : string) : bool := negb (s =? "").

(** [a || b] on strings. *)
Definition or (a b : string) : string := if truthy a then a else b.

(** [a || b] where [a] may be [undefined]. *)
Definition orU (a : option string) (b : option string) : option string :=
  match a with
  | Some s => if truthy s then Some s else b
  | None => b
  end.

(** [a || ''] where [a] may be [undefined] or [null]. *)
Definition orEmpty (a : option string) : string :=
  match a with
  | Some s => s
  | None => ""
  end.

(** [s.replace(/suffix$/, by)] for a literal, fixed-length [suffix]: the
    only possible match is the suffix itself. *)
Definition replaceSuffix (s suffix by_ : string) : string :=
  if endsWith s suffix
  then substring 0 (String.length s - String.length suffix) s ++ by_
  else s.

(** [s.replace(/^prefix/, '')] for a literal [prefix]. *)
Definition removePrefix (s pre : string) : string :=
  if startsWith s pre then slice s (String.length pre) else s.

(** [(s.match(/c/g) || []).length]: the number of occurrences of the
    character [c]. *)
Fixpoint countChar (c : ascii) (s : string) : nat :=
  match s with
  | EmptyString => 0
  | String d t => (if Ascii.eqb d c then 1 else 0) + countChar c t
  end.

(** The line feed used by [lines.join('\n')]. *)
Definition LF : string := String (ascii_of_nat 10) EmptyString.

(** [lines.join(sep)] *)
Definition join (sep : string) (lines : list string) : string :=
  String.concat sep lines.

End JS.

Arguments JS.startsWith : simpl never.

(* ================================================================= *)
(** ** The URL objects the program reads *)

(** The fields of a WHATWG [URL] object that the source reads. *)
Record URL : Type := mkURL {
  protocol : string;
  hostname : string;
  pathname : string;
  origin : string
}.

(** The result of a call that may throw; [Throw] carries [String(err)]. *)
Inductive outcome (A : Type) : Type :=
| Ok (a : A)
| Throw (err : string).

Arguments Ok {A} a.
Arguments Throw {A} err.

(** What [`${err}`] prints for the [TypeError] of a failed [new URL]. *)
Definition ERR_INVALID_URL : string := "TypeError: Invalid URL".

(** A table of [new URL(s)] on the literal inputs used in the examples
    below; every row is what the WHATWG parser returns for that input.
    All of them are absolute, so a base URL does not change the result.
    The final [None] only closes the table: the examples never ask for an
    input outside it. *)
Definition exampleURL (s : string) : option URL :=
  if s =? "https://example.com/" then
    Some (mkURL "https:" "example.com" "/" "https://example.com")
  else if s =? "https://www.example.com/" then
    Some (mkURL "https:" "www.example.com" "/" "https://www.example.com")
  else if s =? "https://www.www.example.com/" then
    Some (mkURL "https:" "www.www.example.com" "/" "https://www.www.example.com")
  else if s =? "https://example.com/about" then
    Some (mkURL "https:" "example.com" "/about" "https://example.com")
  else if s =? "https://www.example.com/about" then
    Some (mkURL "https:" "www.example.com" "/about" "https://www.example.com")
  else if s =? "https://other.org/?ref=example.com" then
    Some (mkURL "https:" "other.org" "/" "https://other.org")
  else if s =? "http://about/" then
    Some (mkURL "http:" "about" "/" "http://about")
  else if s =? "http://i/" then
    Some (mkURL "http:" "i" "/" "http://i")
  else None.

Definition exampleURLBase (s _base : string) : option URL := exampleURL s.

(* ================================================================= *)
(** ** crawler.ts: admission predicate and path reconstruction *)

(** [normalizeHostname]: [hostname.replace(/^www\./, '')]. *)
Definition normalizeHostname (hostname : string) : string :=
  JS.removePrefix hostname "www.".

Section Crawler.

(** [new URL(input)]: [None] when the constructor throws. *)
Variable URL_new : string -> option URL.
(** [new URL(input, base)] *)
Variable URL_new_base : string -> string -> option URL.

(** The [urlFilter] closure handed to the scraper.  It captures the seed
    [url] and [normalizedBaseHost] of the enclosing [fetchWebsite]. *)
Definition urlFilter (url normalizedBaseHost resourceUrl : string) : bool :=
  match URL_new_base resourceUrl url with
  | Some resUrl =>
      let normalizedResHost := normalizeHostname (hostname resUrl) in
      let isSameDomain := normalizedResHost =? normalizedBaseHost in
      let isValidProtocol :=
        (protocol resUrl =? "http:") || (protocol resUrl =? "https:") in
      let isNotAdmin :=
        negb (JS.includes (pathname resUrl) "/wp-admin")
        && negb (JS.includes (pathname resUrl) "/wp-login") in
      isSameDomain && isValidProtocol && isNotAdmin
  | None =>
      negb (JS.startsWith resourceUrl "mailto:")
      && negb (JS.startsWith resourceUrl "tel:")
      && negb (JS.startsWith resourceUrl "javascript:")
      && negb (JS.startsWith resourceUrl "#")
  end.

(** The admission predicate for a seed: [fetchWebsite] computes
    [normalizedBaseHost] from the seed once, outside every [try]; an
    unparsable seed makes the whole call throw. *)
Definition admission (candidateUrl seedUrl : string) : option bool :=
  match URL_new seedUrl with
  | Some baseUrl =>
      Some (urlFilter seedUrl (normalizeHostname (hostname baseUrl))
              candidateUrl)
  | None => None
  end.

(** [hostVariants] of [reconstructUrl]. *)
Definition hostVariants (base : URL) : list string :=
  hostname base
    :: normalizeHostname (hostname base)
    :: ("www." ++ normalizeHostname (hostname base))
    :: nil.

(** The [for (const host of hostVariants)] loop: the first variant that
    matches, with or without a following slash, decides and [break]s. *)
Fixpoint stripHost (relativePath : string) (hosts : list string) : string :=
  match hosts with
  | nil => relativePath
  | host :: rest =>
      if JS.startsWith relativePath (host ++ "/")
      then JS.slice relativePath (String.length host + 1)
      else if JS.startsWith relativePath host
      then JS.slice relativePath (String.length host)
      else stripHost relativePath rest
  end.

(** [pathWithoutHost.replace(/\/index\.html$/, '/').replace(/\.html$/, '')] *)
Definition cleanPath (pathWithoutHost : string) : string :=
  JS.replaceSuffix (JS.replaceSuffix pathWithoutHost "/index.html" "/")
                   ".html" "".

(** The part of [reconstructUrl] after the loop. *)
Definition originPlus (base : URL) (pathWithoutHost : string) : string :=
  if (pathWithoutHost =? "index.html") || (pathWithoutHost =? "")
  then origin base ++ "/"
  else origin base ++ "/" ++ cleanPath pathWithoutHost.

(** [reconstructUrl(baseUrl, relativePath)] *)
Definition reconstructUrl (baseUrl relativePath : string) : outcome string :=
  match URL_new baseUrl with
  | None => Throw ERR_INVALID_URL
  | Some base =>
      let pathWithoutHost := stripHost relativePath (hostVariants base) in
      Ok (originPlus base pathWithoutHost)
  end.

End Crawler.

(** The second copy of [crawler.ts], under [src/]: a simpler revision whose
    [urlFilter] compares host names exactly and whose [reconstructUrl]
    strips no host folder.  [buildSitemap] and the [return] of
    [fetchWebsite] are the same text in both copies. *)
Module SrcCrawler.
Section Crawler.

Variable URL_new : string -> option URL.

Definition urlFilter (baseUrl : URL) (resourceUrl : string) : bool :=
  match URL_new resourceUrl with
  | Some resUrl => hostname resUrl =? hostname baseUrl
  | None => false
  end.

Definition reconstructUrl (baseUrl relativePath : string) : outcome string :=
  match URL_new baseUrl with
  | None => Throw ERR_INVALID_URL
  | Some base =>
      if relativePath =? "index.html"
      then Ok (origin base ++ "/")
      else Ok (origin base ++ "/" ++ cleanPath relativePath)
  end.

End Crawler.
End SrcCrawler.

(* ================================================================= *)
(** ** types.ts: the records *)

(** [Heading]; [None] as a level stands for [NaN]. *)
Record Heading : Type := mkHeading {
  heading_level : option nat;
  heading_text : string
}.

Inductive ListType : Type := ul | ol.

Record ListItem : Type := mkListItem {
  list_type : ListType;
  list_items : list string
}.

Record LinkInfo : Type := mkLinkInfo {
  link_href : string;
  link_text : string;
  isExternal : bool
}.

Record ImageInfo : Type := mkImageInfo {
  image_src : string;
  image_alt : string
}.

Record PageMetadata (json : Type) : Type := mkPageMetadata {
  charset : option string;
  viewport : option string;
  robots : option string;
  canonical : option string;
  ogTitle : option string;
  ogDescription : option string;
  ogImage : option string;
  structuredData : list json
}.

Record PageContent (json : Type) : Type := mkPageContent {
  url : string;
  path : string;
  title : string;
  description : option string;
  headings : list Heading;
  paragraphs : list string;
  lists : list ListItem;
  links : list LinkInfo;
  images : list ImageInfo;
  metadata : PageMetadata json;
  rawHtml : string;
  extractedText : string
}.

Record SitemapEntry : Type := mkSitemapEntry {
  entry_url : string;
  entry_title : string;
  depth : nat
}.

(* ================================================================= *)
(** ** The document queries of the extractor *)

(** What the extractor reads of one element matched by a selector. *)
Record HeadingEl : Type := mkHeadingEl {
  hel_tagName : string;        (* el.tagName, h1 ... h6 *)
  hel_text : string            (* $(el).text() *)
}.

Record ListEl : Type := mkListEl {
  lel_tagName : string;        (* el.tagName, ul or ol *)
  lel_li : list string         (* text() of each direct li child *)
}.

Record AnchorEl : Type := mkAnchorEl {
  ael_href : option string;    (* $(el).attr('href') *)
  ael_text : string
}.

Record ImgEl : Type := mkImgEl {
  iel_src : option string;
  iel_alt : option string
}.

(** A loaded document [$], as the answers to the queries the extractor
    makes, each in document order. *)
Record Cheerio : Type := mkCheerio {
  q_title : string;                       (* $('title').text() *)
  q_h1_first : string;                    (* $('h1').first().text() *)
  q_meta_description : option string;     (* meta[name=description] content *)
  q_meta_og_description : option string;  (* meta[property=og:description] *)
  q_headings : list HeadingEl;            (* h1, h2, h3, h4, h5, h6 *)
  q_p : list string;                      (* text() of each p *)
  q_lists : list ListEl;                  (* ul, ol *)
  q_a_href : list AnchorEl;               (* a[href] *)
  q_img_src : list ImgEl;                 (* img[src] *)
  q_meta_charset : option string;
  q_meta_viewport : option string;
  q_meta_robots : option string;
  q_link_canonical : option string;
  q_meta_og_title : option string;
  q_meta_og_image : option string;
  q_ld_json : list (option string);       (* html() of each ld+json script *)
  q_body : option (list string)           (* None: no body; else the text() of
                                             each h1..h6, p, li, td, th,
                                             blockquote, figcaption under body
                                             once script, style, noscript and
                                             iframe are removed *)
}.

(** [arr.push(x)] *)
Definition push {A : Type} (arr : list A) (x : A) : list A :=
  (arr ++ x :: nil)%list.

(** [$(sel).each((_, el) => body)] over an array being filled. *)
Definition each {A B : Type} (els : list A) (body : list B -> A -> list B)
    (arr : list B) : list B :=
  fold_left body els arr.

(** [parseInt(c)] of a one-character string: a decimal digit or [NaN]. *)
Definition parseIntChar (c : option ascii) : option nat :=
  match c with
  | Some a =>
      let n := nat_of_ascii a in
      if ((48 <=? n) && (n <=? 57))%nat then Some (n - 48) else None
  | None => None
  end.

(* ================================================================= *)
(** ** extractor.ts: [extractPageContent] *)

Section Extractor.

Variable URL_new : string -> option URL.
(** Parsed JSON values and [JSON.parse]; [None] when it throws. *)
Variable json : Type.
Variable JSON_parse : string -> option json.
(** [cheerio.load(html)]; the loaded document, [$] in the source, is
    called [doc] here. *)
Variable cheerio_load : string -> Cheerio.

(** The loops of [extractPageContent], one definition for each array it
    fills. *)
Definition extractHeadings (doc : Cheerio) : list Heading :=
  each (q_headings doc)
    (fun headings el =>
       let level := parseIntChar (String.get 1 (hel_tagName el)) in
       let text := JS.trim (hel_text el) in
       if JS.truthy text then push headings (mkHeading level text)
       else headings)
    nil.

Definition extractParagraphs (doc : Cheerio) : list string :=
  each (q_p doc)
    (fun paragraphs el =>
       let text := JS.trim el in
       if JS.truthy text && (20 <? String.length text)%nat
       then push paragraphs text
       else paragraphs)
    nil.

Definition extractLists (doc : Cheerio) : list ListItem :=
  each (q_lists doc)
    (fun lists el =>
       let type := if lel_tagName el =? "ul" then ul else ol in
       let items :=
         each (lel_li el)
           (fun items li =>
              let text := JS.trim li in
              if JS.truthy text then push items text else items)
           nil in
       if (0 <? List.length items)%nat
       then push lists (mkListItem type items)
       else lists)
    nil.

Definition extractLinks (doc : Cheerio) (baseUrl : URL) : list LinkInfo :=
  each (q_a_href doc)
    (fun links el =>
       let href := JS.orEmpty (ael_href el) in
       let text := JS.trim (ael_text el) in
       if JS.truthy href
          && negb (JS.startsWith href "#")
          && negb (JS.startsWith href "javascript:")
       then
         let isExternal :=
           JS.startsWith href "http"
           && negb (JS.includes href (hostname baseUrl)) in
         push links (mkLinkInfo href text isExternal)
       else links)
    nil.

Definition extractImages (doc : Cheerio) : list ImageInfo :=
  each (q_img_src doc)
    (fun images el =>
       let src := JS.orEmpty (iel_src el) in
       let alt := JS.orEmpty (iel_alt el) in
       if JS.truthy src then push images (mkImageInfo src alt) else images)
    nil.

(** [extractStructuredData]: one [try]/[catch] per script block. *)
Definition extractStructuredData (doc : Cheerio) : list json :=
  each (q_ld_json doc)
    (fun structuredData el =>
       match JSON_parse (JS.orEmpty el) with
       | Some json => push structuredData json
       | None => structuredData          (* catch: ignore invalid JSON *)
       end)
    nil.

(** [extractFullText] *)
Definition extractFullText (doc : Cheerio) : string :=
  match q_body doc with
  | None => ""
  | Some els =>
      let textParts :=
        each els
          (fun textParts el =>
             let text := JS.trim el in
             if JS.truthy text && (5 <? String.length text)%nat
             then push textParts text
             else textParts)
          nil in
      JS.join (JS.LF ++ JS.LF) textParts
  end.

(** [extractPageContent(html, url)]; it throws exactly when [new URL(url)]
    does. *)
Definition extractPageContent (html url : string)
  : outcome (PageContent json) :=
  let doc := cheerio_load html in
  match URL_new url with
  | None => Throw ERR_INVALID_URL
  | Some baseUrl =>
      let title :=
        JS.or (JS.trim (q_title doc))
              (JS.or (JS.trim (q_h1_first doc)) "Untitled") in
      let description :=
        JS.orU (q_meta_description doc)
               (JS.orU (q_meta_og_description doc) None) in
      let headings := extractHeadings doc in
      let paragraphs := extractParagraphs doc in
      let lists := extractLists doc in
      let links := extractLinks doc baseUrl in
      let images := extractImages doc in
      let metadata :=
        {| charset := q_meta_charset doc;
           viewport := q_meta_viewport doc;
           robots := q_meta_robots doc;
           canonical := q_link_canonical doc;
           ogTitle := q_meta_og_title doc;
           ogDescription := q_meta_og_description doc;
           ogImage := q_meta_og_image doc;
           structuredData := extractStructuredData doc |} in
      let extractedText := extractFullText doc in
      Ok {| url := url;
            path := pathname baseUrl;
            title := title;
            description := description;
            headings := headings;
            paragraphs := paragraphs;
            lists := lists;
            links := links;
            images := images;
            metadata := metadata;
            rawHtml := html;
            extractedText := extractedText |}
  end.

End Extractor.

(* ================================================================= *)
(** ** [Array.prototype.sort] *)

(** [arr.sort(compareFn)].  ECMAScript requires the sort to be stable, and
    for a consistent comparator the stable sorted arrangement of an array is
    unique; insertion from the right computes it. *)
Section ArraySort.

Variable A : Type.
Variable compareFn : A -> A -> Z.

Fixpoint insertSorted (x : A) (arr : list A) : list A :=
  match arr with
  | nil => x :: nil
  | y :: rest =>
      if (0 <? compareFn x y)%Z
      then y :: insertSorted x rest
      else x :: y :: rest
  end.

Fixpoint sort (arr : list A) : list A :=
  match arr with
  | nil => nil
  | x :: rest => insertSorted x (sort rest)
  end.

End ArraySort.

(* ================================================================= *)
(** ** crawler.ts: [buildSitemap] *)

Section Sitemap.

Variable json : Type.

(** The arrow function given to [pages.map]. *)
Definition sitemapEntry (p : PageContent json) : SitemapEntry :=
  {| entry_url := url p;
     entry_title := title p;
     depth := JS.countChar "/"%char (path p) |}.

(** The comparator [(a, b) => a.depth - b.depth]. *)
Definition byDepth (a b : SitemapEntry) : Z :=
  (Z.of_nat (depth a) - Z.of_nat (depth b))%Z.

Definition buildSitemap (pages : list (PageContent json))
  : list SitemapEntry :=
  sort byDepth (map sitemapEntry pages).

End Sitemap.

(* ================================================================= *)
(** ** extractor.ts: [generateLlmsTxt] *)

Section Digest.

Variable URL_new : string -> option URL.
Variable json : Type.

(** [homepage?.description], [undefined] when there is no homepage. *)
Definition homepageDescription (homepage : option (PageContent json))
  : option string :=
  match homepage with
  | Some h => description h
  | None => None
  end.

(** [h.level <= 2]; a comparison with [NaN] is false. *)
Definition levelAtMost2 (h : Heading) : bool :=
  match heading_level h with
  | Some n => (n <=? 2)%nat
  | None => false
  end.

(** The body of the first [for (const page of pages)] loop. *)
Definition pushPageLink (lines : list string) (page : PageContent json)
  : list string :=
  let lines := push lines ("- [" ++ title page ++ "](" ++ url page ++ ")") in
  match description page with
  | Some d => if JS.truthy d then push lines ("  " ++ d) else lines
  | None => lines
  end.

(** The body of the second [for (const page of pages)] loop. *)
Definition pushPageContent (lines : list string) (page : PageContent json)
  : list string :=
  if (0 <? List.length (headings page))%nat
     || (0 <? List.length (paragraphs page))%nat
  then
    let lines := push lines ("### " ++ title page) in
    let lines := push lines ("URL: " ++ url page) in
    let lines := push lines "" in
    let lines :=
      fold_left (fun lines h => push lines ("- " ++ heading_text h))
                (filter levelAtMost2 (headings page)) lines in
    let lines :=
      match paragraphs page with
      | p0 :: _ =>
          if JS.truthy p0
          then
            let lines := push lines "" in
            push lines
              (substring 0 300 p0
               ++ (if (300 <? String.length p0)%nat then "..." else ""))
          else lines
      | nil => lines
      end in
    push lines ""
  else lines.

(** The [lines] array of [generateLlmsTxt] when it is joined. *)
Definition llmsTxtLines (pages : list (PageContent json)) (domain : string)
  : list string :=
  let lines := nil in
  let lines := push lines ("# " ++ domain) in
  let lines := push lines "" in
  let homepage :=
    find (fun p => (path p =? "/") || (path p =? "")) pages in
  let lines :=
    match homepageDescription homepage with
    | Some d =>
        if JS.truthy d
        then push (push lines ("> " ++ d)) ""
        else lines
    | None => lines
    end in
  let lines := push lines "## Seiten / Pages" in
  let lines := push lines "" in
  let lines := fold_left pushPageLink pages lines in
  let lines := push lines "" in
  let lines := push lines "## Inhalt / Content" in
  let lines := push lines "" in
  let lines := fold_left pushPageContent pages lines in
  lines.

(** [generateLlmsTxt(pages, baseUrl)] *)
Definition generateLlmsTxt (pages : list (PageContent json))
    (baseUrl : string) : outcome string :=
  match URL_new baseUrl with
  | None => Throw ERR_INVALID_URL
  | Some u =>
      let domain := hostname u in
      Ok (JS.join JS.LF (llmsTxtLines pages domain))
  end.

End Digest.

(* ================================================================= *)
(** ** crawler.ts: [fetchWebsite] *)

Inductive AssetType : Type := css | js | image | font | other.

Record AssetInfo : Type := mkAssetInfo {
  asset_url : string;
  localPath : string;
  asset_type : AssetType;
  size : nat
}.

Record SiteContent (json : Type) : Type := mkSiteContent {
  baseUrl : string;
  fetchedAt : string;
  totalPages : nat;
  totalAssets : nat;
  pages : list (PageContent json);
  assets : list AssetInfo;
  sitemap : list SitemapEntry;
  suggestedLlmsTxt : string
}.

Record FetchResult (json : Type) : Type := mkFetchResult {
  success : bool;
  siteContent : SiteContent json;
  result_outputDir : string;
  errors : list string
}.

(** The options [fetchWebsite] branches on.  The remaining ones
    ([recursive], [maxDepth], the [include*] switches, [userAgent]) are only
    forwarded to the scraper.  [opt_generateMarkdown] decides whether the
    Markdown report is generated and written after the [try]; that step is
    not followed on its own here, its outcome is part of [w_persist]. *)
Record FetchOptions : Type := mkFetchOptions {
  opt_url : string;
  opt_outputDir : string;
  opt_extractContent : option bool;
  opt_generateLlmsTxt : option bool;
  opt_generateMarkdown : option bool
}.

(** One file returned by [findHtmlFiles], with what the file system
    answers for it during the run. *)
Record HtmlFile : Type := mkHtmlFile {
  hf_path : string;               (* htmlFile *)
  hf_relative : string;           (* path.relative(assetsDir, htmlFile) *)
  hf_readFile : outcome string;   (* fs.readFile(htmlFile, 'utf-8') *)
  hf_writeJson : outcome unit     (* fs.ensureDir, then fs.writeJson *)
}.

(** One file returned by [findAllFiles]. *)
Record AssetFile : Type := mkAssetFile {
  af_relative : string;           (* path.relative(assetsDir, file) *)
  af_ext : string;                (* path.extname(file).toLowerCase() *)
  af_stat : outcome nat           (* (await fs.stat(file)).size *)
}.

(** What the scraper, the file system and the clock answer in one run. *)
Record World : Type := mkWorld {
  w_prepare : outcome unit;       (* ensureDir, ensureDir, remove: before try *)
  w_scrape : outcome nat;         (* (await scrape({...})).length *)
  w_findHtmlFiles : outcome (list HtmlFile);
  w_findAllFiles : outcome (list AssetFile);
  w_now : string;                 (* new Date().toISOString() *)
  w_persist : outcome unit        (* everything after the try that may
                                     throw: the writes of the results and,
                                     when enabled, the generation and the
                                     write of the Markdown report *)
}.

(** A destructuring default: [x = d] takes [d] when the option is
    [undefined]. *)
Definition withDefault {A : Type} (d : A) (x : option A) : A :=
  match x with
  | Some a => a
  | None => d
  end.

Section Orchestrator.

Variable URL_new : string -> option URL.
Variable json : Type.
Variable JSON_parse : string -> option json.
Variable cheerio_load : string -> Cheerio.

(** The three arrays [fetchWebsite] fills. *)
Record Run : Type := mkRun {
  run_errors : list string;
  run_pages : list (PageContent json);
  run_assets : list AssetInfo
}.

(** Code that updates the arrays and may throw. *)
Definition M (A : Type) : Type := Run -> outcome A * Run.

Definition ret {A : Type} (a : A) : M A := fun s => (Ok a, s).

Definition bind {A B : Type} (m : M A) (k : A -> M B) : M B :=
  fun s =>
    match m s with
    | (Ok a, s') => k a s'
    | (Throw e, s') => (Throw e, s')
    end.

(** [await] of an outside call. *)
Definition await {A : Type} (o : outcome A) : M A := fun s => (o, s).

(** [try { body } catch (err) { handler }] *)
Definition tryCatch (body : M unit) (handler : string -> M unit) : M unit :=
  fun s =>
    match body s with
    | (Ok a, s') => (Ok a, s')
    | (Throw e, s') => handler e s'
    end.

Definition pushError (e : string) : M unit :=
  fun s => (Ok tt, mkRun (push (run_errors s) e) (run_pages s) (run_assets s)).

Definition pushPage (p : PageContent json) : M unit :=
  fun s => (Ok tt, mkRun (run_errors s) (push (run_pages s) p) (run_assets s)).

Definition pushAsset (a : AssetInfo) : M unit :=
  fun s => (Ok tt, mkRun (run_errors s) (run_pages s) (push (run_assets s) a)).

(** [for (const x of xs) { body }] *)
Fixpoint forOf {A : Type} (xs : list A) (body : A -> M unit) : M unit :=
  match xs with
  | nil => ret tt
  | x :: rest => bind (body x) (fun _ => forOf rest body)
  end.

Notation "x <- m ;; k" := (bind m (fun x => k))
  (at level 61, m at next level, right associativity).
Notation "m ;;; k" := (bind m (fun _ => k))
  (at level 61, right associativity).

(** The body of the loop over [htmlFiles], with its own [try]. *)
Definition extractHtmlFile (url : string) (htmlFile : HtmlFile) : M unit :=
  tryCatch
    (html <- await (hf_readFile htmlFile) ;;
     let relativePath := hf_relative htmlFile in
     pageUrl <- await (reconstructUrl URL_new url relativePath) ;;
     pageContent <-
       await (extractPageContent URL_new JSON_parse cheerio_load
                html pageUrl) ;;
     pushPage pageContent ;;;
     await (hf_writeJson htmlFile))
    (fun err =>
       pushError ("Error extracting " ++ hf_path htmlFile ++ ": " ++ err)).

Definition inList (x : string) (l : list string) : bool :=
  existsb (String.eqb x) l.

Definition assetTypeOf (ext : string) : AssetType :=
  if inList ext (".css" :: nil) then css
  else if inList ext (".js" :: nil) then js
  else if inList ext (".jpg" :: ".jpeg" :: ".png" :: ".gif" :: ".svg"
                      :: ".webp" :: ".ico" :: nil) then image
  else if inList ext (".woff" :: ".woff2" :: ".ttf" :: ".eot" :: ".otf"
                      :: nil) then font
  else other.

(** The body of the loop over [allFiles]. *)
Definition catalogFile (url : string) (file : AssetFile) : M unit :=
  let relativePath := af_relative file in
  let ext := af_ext file in
  size <- await (af_stat file) ;;
  let type := assetTypeOf ext in
  assetUrl <- await (reconstructUrl URL_new url relativePath) ;;
  pushAsset (mkAssetInfo assetUrl relativePath type size).

(** The outer [try] block and its [catch]. *)
Definition scrapeAndExtract (url : string) (extractContent : bool)
    (w : World) : M unit :=
  tryCatch
    (_result <- await (w_scrape w) ;;
     (if extractContent
      then htmlFiles <- await (w_findHtmlFiles w) ;;
           forOf htmlFiles (extractHtmlFile url)
      else ret tt) ;;;
     allFiles <- await (w_findAllFiles w) ;;
     forOf allFiles (catalogFile url))
    (fun err => pushError ("Scraping error: " ++ err)).

(** [fetchWebsite(options)] in a given world: the returned [FetchResult],
    or the exception with which the promise rejects. *)
Definition fetchWebsite (options : FetchOptions) (w : World)
  : outcome (FetchResult json) :=
  let url := opt_url options in
  let outputDir := opt_outputDir options in
  let extractContent := withDefault true (opt_extractContent options) in
  let genLlms := withDefault true (opt_generateLlmsTxt options) in
  match URL_new url with
  | None => Throw ERR_INVALID_URL
  | Some _baseUrl =>
      match w_prepare w with
      | Throw e => Throw e
      | Ok _ =>
          let st := snd (scrapeAndExtract url extractContent w
                           (mkRun nil nil nil)) in
          let errors := run_errors st in
          let pages := run_pages st in
          let assets := run_assets st in
          match (if genLlms then generateLlmsTxt URL_new pages url
                 else Ok "") with
          | Throw e => Throw e
          | Ok llmsTxt =>
              let siteContent :=
                {| baseUrl := url;
                   fetchedAt := w_now w;
                   totalPages := List.length pages;
                   totalAssets := List.length assets;
                   pages := pages;
                   assets := assets;
                   sitemap := buildSitemap pages;
                   suggestedLlmsTxt := llmsTxt |} in
              match w_persist w with
              | Throw e => Throw e
              | Ok _ =>
                  Ok {| success := (List.length errors =? 0)%nat;
                        siteContent := siteContent;
                        result_outputDir := outputDir;
                        errors := errors |}
              end
          end
      end
  end.

End Orchestrator.

(* ================================================================= *)
(** ** Vocabulary of the statements *)

(** The first path segment of a relative path: everything before the
    first slash. *)
Fixpoint firstSegment (relativePath : string) : string :=
  match relativePath with
  | EmptyString => EmptyString
  | String c rest =>
      if Ascii.eqb c "/"%char then EmptyString
      else String c (firstSegment rest)
  end.

(** No host variant of the seed is a non-empty prefix of the path. *)
Definition hostPrefixFree (base : URL) (relativePath : string) : bool :=
  forallb (fun host => (host =? "") || negb (JS.startsWith relativePath host))
          (hostVariants base).

(** The anchors [extractLinks] keeps. *)
Definition keptAnchor (el : AnchorEl) : bool :=
  JS.truthy (JS.orEmpty (ael_href el))
  && negb (JS.startsWith (JS.orEmpty (ael_href el)) "#")
  && negb (JS.startsWith (JS.orEmpty (ael_href el)) "javascript:").

(** The record [extractLinks] makes of an anchor it keeps. *)
Definition linkOf (baseUrl : URL) (el : AnchorEl) : LinkInfo :=
  mkLinkInfo (JS.orEmpty (ael_href el)) (JS.trim (ael_text el))
    (JS.startsWith (JS.orEmpty (ael_href el)) "http"
     && negb (JS.includes (JS.orEmpty (ael_href el)) (hostname baseUrl))).

(** What one script block adds to [structuredData]. *)
Definition parsedBlock (json : Type) (JSON_parse : string -> option json)
    (el : option string) : list json :=
  match JSON_parse (JS.orEmpty el) with
  | Some value => value :: nil
  | None => nil
  end.

(** Ascending order of sitemap entries. *)
Definition depthLe (a b : SitemapEntry) : Prop := depth a <= depth b.

Section DigestShape.

Variable json : Type.

(** The predicate given to [pages.find]. *)
Definition isHomepage (p : PageContent json) : bool :=
  (path p =? "/") || (path p =? "").

(** The lines one page adds to the page list. *)
Definition pageLinkLines (page : PageContent json) : list string :=
  ("- [" ++ title page ++ "](" ++ url page ++ ")")
  :: match description page with
     | Some d => if JS.truthy d then ("  " ++ d) :: nil else nil
     | None => nil
     end.

(** The first paragraph as the digest prints it. *)
Definition summaryOf (p0 : string) : string :=
  substring 0 300 p0 ++ (if (300 <? String.length p0)%nat then "..." else "").

(** The subsection one page adds to the content part. *)
Definition contentSubsection (page : PageContent json) : list string :=
  match headings page, paragraphs page with
  | nil, nil => nil
  | _, _ =>
      (("### " ++ title page) :: ("URL: " ++ url page) :: "" :: nil)
      +++ map (fun h => "- " ++ heading_text h)
              (filter levelAtMost2 (headings page))
      +++ match paragraphs page with
          | p0 :: _ =>
              if JS.truthy p0 then "" :: summaryOf p0 :: nil else nil
          | nil => nil
          end
      +++ "" :: nil
  end.

(** The lines after the title and, when there is one, the summary. *)
Definition digestBody (pages : list (PageContent json)) : list string :=
  ("## Seiten / Pages" :: "" :: nil)
  +++ flat_map pageLinkLines pages
  +++ ("" :: "## Inhalt / Content" :: "" :: nil)
  +++ flat_map contentSubsection pages.

End DigestShape.

(* ================================================================= *)
(** ** Example documents, pages and worlds *)

(** What [cheerio.load('')] answers: a document with an empty body. *)
Definition emptyDocument : Cheerio :=
  {| q_title := ""; q_h1_first := "";
     q_meta_description := None; q_meta_og_description := None;
     q_headings := nil; q_p := nil; q_lists := nil;
     q_a_href := nil; q_img_src := nil;
     q_meta_charset := None; q_meta_viewport := None;
     q_meta_robots := None; q_link_canonical := None;
     q_meta_og_title := None; q_meta_og_image := None;
     q_ld_json := nil; q_body := Some nil |}.

Definition html_partner_link : string :=
  "<a href='https://other.org/?ref=example.com'>partner</a>".

Definition html_two_paragraphs : string :=
  "<p> 12345678901234567890 </p><p>123456789012345678901</p>".

Definition html_ld_json : string :=
  "<script type='application/ld+json'>{</script>"
  ++ "<script type='application/ld+json'>1</script>"
  ++ "<p>A paragraph of the page itself.</p>".

(** A table of [cheerio.load] on the documents above.  The final row only
    closes the table: the examples load no other document. *)
Definition exampleLoad (html : string) : Cheerio :=
  if html =? html_partner_link then
    {| q_title := ""; q_h1_first := "";
       q_meta_description := None; q_meta_og_description := None;
       q_headings := nil; q_p := nil; q_lists := nil;
       q_a_href :=
         mkAnchorEl (Some "https://other.org/?ref=example.com") "partner"
         :: nil;
       q_img_src := nil;
       q_meta_charset := None; q_meta_viewport := None;
       q_meta_robots := None; q_link_canonical := None;
       q_meta_og_title := None; q_meta_og_image := None;
       q_ld_json := nil; q_body := Some nil |}
  else if html =? html_two_paragraphs then
    {| q_title := ""; q_h1_first := "";
       q_meta_description := None; q_meta_og_description := None;
       q_headings := nil;
       q_p := " 12345678901234567890 " :: "123456789012345678901" :: nil;
       q_lists := nil; q_a_href := nil; q_img_src := nil;
       q_meta_charset := None; q_meta_viewport := None;
       q_meta_robots := None; q_link_canonical := None;
       q_meta_og_title := None; q_meta_og_image := None;
       q_ld_json := nil;
       q_body :=
         Some (" 12345678901234567890 " :: "123456789012345678901" :: nil) |}
  else if html =? html_ld_json then
    {| q_title := ""; q_h1_first := "";
       q_meta_description := None; q_meta_og_description := None;
       q_headings := nil;
       q_p := "A paragraph of the page itself." :: nil;
       q_lists := nil; q_a_href := nil; q_img_src := nil;
       q_meta_charset := None; q_meta_viewport := None;
       q_meta_robots := None; q_link_canonical := None;
       q_meta_og_title := None; q_meta_og_image := None;
       q_ld_json := Some "{" :: Some "1" :: nil;
       q_body := Some ("A paragraph of the page itself." :: nil) |}
  else emptyDocument.

(** A table of [JSON.parse] with numbers as the only values: the text [1]
    parses to the number one, and the other input of the examples, a lone
    opening brace, makes [JSON.parse] throw. *)
Definition exampleJSON (text : string) : option nat :=
  if text =? "1" then Some 1 else None.

(** A world in which the scraper returns without having stored a file. *)
Definition emptySiteWorld : World :=
  {| w_prepare := Ok tt;
     w_scrape := Ok 0;
     w_findHtmlFiles := Ok nil;
     w_findAllFiles := Ok nil;
     w_now := "2024-01-01T00:00:00.000Z";
     w_persist := Ok tt |}.

Definition exampleOptions : FetchOptions :=
  {| opt_url := "https://example.com/";
     opt_outputDir := "./fetched";
     opt_extractContent := None;
     opt_generateLlmsTxt := None;
     opt_generateMarkdown := None |}.

(** A downloaded page with one malformed and one well-formed block. *)
Definition ldJsonFile : HtmlFile :=
  {| hf_path := "/out/assets/example.com/index.html";
     hf_relative := "example.com/index.html";
     hf_readFile := Ok html_ld_json;
     hf_writeJson := Ok tt |}.

(** A page record with the fields the digest reads. *)
Definition examplePage (url path title : string) (description : option string)
    (headings : list Heading) (paragraphs : list string) : PageContent nat :=
  {| url := url; path := path; title := title; description := description;
     headings := headings; paragraphs := paragraphs;
     lists := nil; links := nil; images := nil;
     metadata := mkPageMetadata None None None None None None None nil;
     rawHtml := ""; extractedText := "" |}.

(** [c.repeat(n)] *)
Fixpoint repeatChar (c : ascii) (n : nat) : string :=
  match n with
  | O => EmptyString
  | S n' => String c (repeatChar c n')
  end.

Definition pageLong : PageContent nat :=
  examplePage "https://example.com/" "/" "Home" None
    (mkHeading (Some 1) "Home" :: mkHeading (Some 3) "Details" :: nil)
    (repeatChar "x" 310 :: nil).

Definition pageExact : PageContent nat :=
  examplePage "https://example.com/exact" "/exact" "Exact" None nil
    (repeatChar "y" 300 :: nil).

Definition pageBare : PageContent nat :=
  examplePage "https://example.com/about" "/about" "About" None nil nil.

Definition homeWithoutDescription : PageContent nat :=
  examplePage "https://example.com/" "/" "Home" None nil nil.

Definition laterRootWithDescription : PageContent nat :=
  examplePage "https://example.com" "" "Start" (Some "A later summary.")
    nil nil.

(* ================================================================= *)
(** ** crawler.ts: [findHtmlFiles] and [findAllFiles] *)

(** One entry of [fs.readdir(dir, { withFileTypes: true })].  A directory
    entry carries what [readdir] answers for it in turn; every entry whose
    [isDirectory()] is false counts as a file. *)
#[warning="-register-all"]
Inductive Dirent : Type :=
| FileEnt (name : string)
| DirEnt (name : string) (readdir : outcome (list Dirent)).

(** [for (const item of items)] filling [files], where [visit] gives what
    one item appends or the exception it raises. *)
Definition forItems (visit : Dirent -> outcome (list string))
  : list Dirent -> list string -> outcome (list string) :=
  fix loop (items : list Dirent) (files : list string) :=
    match items with
    | nil => Ok files
    | item :: rest =>
        match visit item with
        | Throw e => Throw e
        | Ok found => loop rest (files ++ found)%list
        end
    end.

Section DirectoryWalk.

(** [path.join(dir, name)] *)
Variable path_join : string -> string -> string.

(** The body of the loop of [findHtmlFiles] for one item of [dir]; a
    directory is answered by the recursive call on [fullPath]. *)
Fixpoint visitHtml (dir : string) (item : Dirent) {struct item}
  : outcome (list string) :=
  match item with
  | FileEnt name =>
      let fullPath := path_join dir name in
      if JS.endsWith name ".html" || JS.endsWith name ".htm"
      then Ok (fullPath :: nil)
      else Ok nil
  | DirEnt name readdir =>
      let fullPath := path_join dir name in
      match readdir with
      | Throw e => Throw e
      | Ok items => forItems (visitHtml fullPath) items nil
      end
  end.

(** [findHtmlFiles(dir)], given what [readdir(dir)] answers. *)
Definition findHtmlFiles (dir : string) (readdir : outcome (list Dirent))
  : outcome (list string) :=
  match readdir with
  | Throw e => Throw e
  | Ok items => forItems (visitHtml dir) items nil
  end.

(** The body of the loop of [findAllFiles] for one item of [dir]. *)
Fixpoint visitAll (dir : string) (item : Dirent) {struct item}
  : outcome (list string) :=
  match item with
  | FileEnt name => Ok (path_join dir name :: nil)
  | DirEnt name readdir =>
      let fullPath := path_join dir name in
      match readdir with
      | Throw e => Throw e
      | Ok items => forItems (visitAll fullPath) items nil
      end
  end.

(** [findAllFiles(dir)] *)
Definition findAllFiles (dir : string) (readdir : outcome (list Dirent))
  : outcome (list string) :=
  match readdir with
  | Throw e => Throw e
  | Ok items => forItems (visitAll dir) items nil
  end.

End DirectoryWalk.

(** The number of non-directory entries below a listing, when every
    [readdir] below it succeeds. *)
Fixpoint fileCount (item : Dirent) : nat :=
  match item with
  | FileEnt _ => 1
  | DirEnt _ (Ok items) => fold_right (fun it n => fileCount it + n) 0 items
  | DirEnt _ (Throw _) => 0
  end.

(** Every [readdir] below the entry succeeds. *)
Fixpoint readable (item : Dirent) : bool :=
  match item with
  | FileEnt _ => true
  | DirEnt _ (Ok items) => forallb readable items
  | DirEnt _ (Throw _) => false
  end.

(** [sub] is [full] with some elements left out, order kept. *)
Inductive Subsequence {A : Type} : list A -> list A -> Prop :=
| Subsequence_nil : Subsequence nil nil
| Subsequence_keep (x : A) (sub full : list A) :
    Subsequence sub full -> Subsequence (x :: sub) (x :: full)
| Subsequence_skip (x : A) (sub full : list A) :
    Subsequence sub full -> Subsequence sub (x :: full).

(* ================================================================= *)
(** ** extractor.ts: [generateMarkdownReport] *)

(** [s.repeat(n)] for a count [n >= 0]. *)
Fixpoint stringRepeat (s : string) (n : nat) : string :=
  match n with
  | O => EmptyString
  | S n' => s ++ stringRepeat s n'
  end.

(** [`${n}`] for a non-negative integer. *)
Definition showNat (n : nat) : string :=
  NilEmpty.string_of_uint (Nat.to_uint n).

(** ['  '.repeat(h.level - 1)].  A level of 0 asks for a negative count,
    for which [repeat] throws; [NaN - 1] is [NaN], which [repeat] takes
    for 0. *)
Definition headingIndent (level : option nat) : outcome string :=
  match level with
  | None => Ok ""
  | Some O => Throw "RangeError: Invalid count value: -1"
  | Some (S n) => Ok (stringRepeat "  " n)
  end.

Section Report.

Variable URL_new : string -> option URL.
Variable json : Type.

(** [for (const h of page.headings)] of the Structure section. *)
Fixpoint pushStructure (hs : list Heading) (lines : list string)
  : outcome (list string) :=
  match hs with
  | nil => Ok lines
  | h :: rest =>
      match headingIndent (heading_level h) with
      | Throw e => Throw e
      | Ok indent =>
          pushStructure rest (push lines (indent ++ "- " ++ heading_text h))
      end
  end.

(** The body of [for (const page of pages)] in the report. *)
Definition pushPageReport (lines : list string) (page : PageContent json)
  : outcome (list string) :=
  let lines := push lines ("## " ++ title page) in
  let lines := push lines "" in
  let lines := push lines ("**URL:** " ++ url page) in
  let lines :=
    match description page with
    | Some d =>
        if JS.truthy d then push lines ("**Description:** " ++ d) else lines
    | None => lines
    end in
  let lines := push lines "" in
  match (if (0 <? List.length (headings page))%nat
         then
           match pushStructure (headings page) (push lines "### Structure")
           with
           | Throw e => Throw e
           | Ok lines => Ok (push lines "")
           end
         else Ok lines) with
  | Throw e => Throw e
  | Ok lines =>
      let lines :=
        if (0 <? List.length (paragraphs page))%nat
        then
          fold_left (fun lines p => push (push lines p) "")
                    (firstn 10 (paragraphs page))
                    (push lines "### Content")
        else lines in
      let lines :=
        if (0 <? List.length (images page))%nat
        then
          let lines := push lines "### Images" in
          let lines :=
            fold_left
              (fun lines img =>
                 push lines ("- " ++ JS.or (image_alt img) "No alt text"
                             ++ ": " ++ image_src img))
              (images page) lines in
          push lines ""
        else lines in
      let lines := push lines "---" in
      Ok (push lines "")
  end.

(** The outer loop, which stops at the first exception. *)
Fixpoint pushPageReports (pages : list (PageContent json))
    (lines : list string) : outcome (list string) :=
  match pages with
  | nil => Ok lines
  | page :: rest =>
      match pushPageReport lines page with
      | Throw e => Throw e
      | Ok lines => pushPageReports rest lines
      end
  end.

(** [generateMarkdownReport(pages, baseUrl)], with [now] for
    [new Date().toISOString()]. *)
Definition generateMarkdownReport (pages : list (PageContent json))
    (baseUrl now : string) : outcome string :=
  match URL_new baseUrl with
  | None => Throw ERR_INVALID_URL
  | Some u =>
      let domain := hostname u in
      let lines := nil in
      let lines := push lines ("# Website Content: " ++ domain) in
      let lines := push lines "" in
      let lines := push lines ("Fetched: " ++ now) in
      let lines :=
        push lines ("Total Pages: " ++ showNat (List.length pages)) in
      let lines := push lines "" in
      let lines := push lines "---" in
      let lines := push lines "" in
      match pushPageReports pages lines with
      | Throw e => Throw e
      | Ok lines => Ok (JS.join JS.LF lines)
      end
  end.

End Report.

(* ================================================================= *)
(** ** index.ts: the command line *)

(** The URL normalisation of the [fetch] command. *)
Definition normalizeUrl (url : string) : string :=
  if negb (JS.startsWith url "http://") && negb (JS.startsWith url "https://")
  then "https://" ++ url
  else url.

(** The warnings the [fetch] command prints, one element per
    [console.log]; [yellow] is [chalk.yellow]. *)
Definition printWarnings (yellow : string -> string) (errors : list string)
  : list string :=
  let out := nil in
  if (0 <? List.length errors)%nat
  then
    let out :=
      push out (yellow (JS.LF ++ "Warnings ("
                        ++ showNat (List.length errors) ++ "):")) in
    let out :=
      fold_left (fun out e => push out ("  - " ++ e)) (firstn 5 errors) out in
    if (5 <? List.length errors)%nat
    then push out ("  ... and " ++ showNat (List.length errors - 5) ++ " more")
    else out
  else out.

Definition AssetType_eqb (a b : AssetType) : bool :=
  match a, b with
  | css, css | js, js | image, image | font, font | other, other => true
  | _, _ => false
  end.

(** The object [assetTypes] of the [analyze] command: its own properties in
    insertion order, which is the order [Object.entries] lists them in.
    The keys are the five values the [AssetInfo] type allows for [type]. *)
Definition TypeCounts : Type := list (AssetType * nat).

(** [acc[type]] *)
Fixpoint getCount (acc : TypeCounts) (type : AssetType) : option nat :=
  match acc with
  | nil => None
  | (t, n) :: rest => if AssetType_eqb t type then Some n else getCount rest type
  end.

(** [acc[type] = n]: an existing property keeps its place, a new one goes
    last. *)
Fixpoint setCount (acc : TypeCounts) (type : AssetType) (n : nat)
  : TypeCounts :=
  match acc with
  | nil => (type, n) :: nil
  | (t, m) :: rest =>
      if AssetType_eqb t type then (t, n) :: rest
      else (t, m) :: setCount rest type n
  end.

(** The reducer [(acc, a) => { acc[a.type] = (acc[a.type] || 0) + 1;
    return acc; }]. *)
Definition countAsset (acc : TypeCounts) (a : AssetInfo) : TypeCounts :=
  let current :=
    match getCount acc (asset_type a) with
    | Some n => if (n =? 0)%nat then 0 else n
    | None => 0
    end in
  setCount acc (asset_type a) (current + 1).

(** [content.assets.reduce(..., {})] *)
Definition assetTypes (assets : list AssetInfo) : TypeCounts :=
  fold_left countAsset assets nil.

(* ================================================================= *)
(** ** Vocabulary of the further statements *)

(** What one downloaded file adds to the pages and to the errors of a run,
    taken alone. *)
Definition fileContribution (URL_new : string -> option URL) (json : Type)
    (JSON_parse : string -> option json) (cheerio_load : string -> Cheerio)
    (url : string) (htmlFile : HtmlFile)
  : list (PageContent json) * list string :=
  let run :=
    snd (extractHtmlFile URL_new JSON_parse cheerio_load url htmlFile
           (mkRun nil nil nil)) in
  (run_pages run, run_errors run).

(** The asset record [catalogFile] makes of a file whose [stat] succeeds. *)
Definition assetOf (base : URL) (file : AssetFile) : AssetInfo :=
  mkAssetInfo
    (originPlus base (stripHost (af_relative file) (hostVariants base)))
    (af_relative file)
    (assetTypeOf (af_ext file))
    (match af_stat file with
     | Ok size => size
     | Throw _ => 0
     end).

(** Whether [stat] succeeds for a file. *)
Definition statOk (file : AssetFile) : bool :=
  match af_stat file with
  | Ok _ => true
  | Throw _ => false
  end.

(** The indentation of a heading whose level is not 0. *)
Definition indentText (level : option nat) : string :=
  match level with
  | Some (S n) => stringRepeat "  " n
  | _ => ""
  end.

(** No heading of the page has level 0. *)
Definition levelsPositive (json : Type) (page : PageContent json) : bool :=
  forallb (fun h => match heading_level h with
                    | Some O => false
                    | _ => true
                    end)
          (headings page).

(** The lines one page adds to the Markdown report. *)
Definition reportBlock (json : Type) (page : PageContent json)
  : list string :=
  (("## " ++ title page) :: "" :: ("**URL:** " ++ url page) :: nil)
  +++ match description page with
      | Some d => if JS.truthy d then ("**Description:** " ++ d) :: nil else nil
      | None => nil
      end
  +++ ("" :: nil)
  +++ match headings page with
      | nil => nil
      | _ =>
          ("### Structure" :: nil)
          +++ map (fun h => indentText (heading_level h) ++ "- "
                            ++ heading_text h)
                  (headings page)
          +++ ("" :: nil)
      end
  +++ match paragraphs page with
      | nil => nil
      | _ =>
          ("### Content" :: nil)
          +++ flat_map (fun p => p :: "" :: nil) (firstn 10 (paragraphs page))
      end
  +++ match images page with
      | nil => nil
      | _ =>
          ("### Images" :: nil)
          +++ map (fun img => "- " ++ JS.or (image_alt img) "No alt text"
                              ++ ": " ++ image_src img)
                  (images page)
          +++ ("" :: nil)
      end
  +++ ("---" :: "" :: nil).

(* ================================================================= *)
(** ** Further example inputs *)

(** More rows of [new URL(s)], before those of [exampleURL]. *)
Definition moreURL (s : string) : option URL :=
  if s =? "https://example.com/wp-admin/options.php" then
    Some (mkURL "https:" "example.com" "/wp-admin/options.php"
                "https://example.com")
  else if s =? "https://example.com/blog/wp-login.php" then
    Some (mkURL "https:" "example.com" "/blog/wp-login.php"
                "https://example.com")
  else if s =? "ftp://example.com/file" then
    Some (mkURL "ftp:" "example.com" "/file" "ftp://example.com")
  else if s =? "https://example.com/docs/" then
    Some (mkURL "https:" "example.com" "/docs/" "https://example.com")
  else if s =? "https://example.com/broken" then
    Some (mkURL "https:" "example.com" "/broken" "https://example.com")
  else exampleURL s.

Definition moreURLBase (s _base : string) : option URL := moreURL s.

(** [path.join(dir, name)] for a normalised [dir] and a plain file name. *)
Definition joinPath (dir name : string) : string := dir ++ "/" ++ name.

Definition html_article : string :=
  "<title> </title><h1> Welcome </h1><ul><li> one </li><li> </li></ul>"
  ++ "<ol></ol><a href='#top'>top</a><a href='/about'>About</a>"
  ++ "<img src='/logo.png'><p>Hello world</p>".

(** One more row of [cheerio.load], before those of [exampleLoad]. *)
Definition moreLoad (html : string) : Cheerio :=
  if html =? html_article then
    {| q_title := " "; q_h1_first := " Welcome ";
       q_meta_description := None; q_meta_og_description := None;
       q_headings := mkHeadingEl "h1" " Welcome " :: nil;
       q_p := "Hello world" :: nil;
       q_lists := mkListEl "ul" (" one " :: " " :: nil)
                  :: mkListEl "ol" nil :: nil;
       q_a_href := mkAnchorEl (Some "#top") "top"
                   :: mkAnchorEl (Some "/about") "About" :: nil;
       q_img_src := mkImgEl (Some "/logo.png") None :: nil;
       q_meta_charset := None; q_meta_viewport := None;
       q_meta_robots := None; q_link_canonical := None;
       q_meta_og_title := None; q_meta_og_image := None;
       q_ld_json := nil;
       q_body := Some (" Welcome " :: " one " :: " " :: "Hello world" :: nil) |}
  else exampleLoad html.

(** Two more downloaded pages: one that cannot be read, one whose record
    cannot be written. *)
Definition unreadableFile : HtmlFile :=
  {| hf_path := "/out/assets/example.com/broken.html";
     hf_relative := "example.com/broken.html";
     hf_readFile := Throw "Error: EACCES: permission denied";
     hf_writeJson := Ok tt |}.

Definition unwritableFile : HtmlFile :=
  {| hf_path := "/out/assets/example.com/about.html";
     hf_relative := "example.com/about.html";
     hf_readFile := Ok html_two_paragraphs;
     hf_writeJson := Throw "Error: ENOSPC: no space left on device" |}.

Definition indexAsset : AssetFile :=
  {| af_relative := "example.com/index.html";
     af_ext := ".html";
     af_stat := Ok 120 |}.

Definition styleAsset : AssetFile :=
  {| af_relative := "example.com/css/site.css";
     af_ext := ".css";
     af_stat := Ok 300 |}.

Definition vanishedAsset : AssetFile :=
  {| af_relative := "example.com/img/logo.png";
     af_ext := ".png";
     af_stat := Throw "Error: ENOENT: no such file or directory" |}.

(** A run over three pages and two assets. *)
Definition smallSiteWorld : World :=
  {| w_prepare := Ok tt;
     w_scrape := Ok 3;
     w_findHtmlFiles := Ok (ldJsonFile :: unreadableFile :: unwritableFile
                            :: nil);
     w_findAllFiles := Ok (indexAsset :: styleAsset :: nil);
     w_now := "2024-01-01T00:00:00.000Z";
     w_persist := Ok tt |}.

(** The same run when a file disappears while the assets are listed. *)
Definition vanishingWorld : World :=
  {| w_prepare := Ok tt;
     w_scrape := Ok 3;
     w_findHtmlFiles := Ok (ldJsonFile :: nil);
     w_findAllFiles := Ok (indexAsset :: vanishedAsset :: styleAsset :: nil);
     w_now := "2024-01-01T00:00:00.000Z";
     w_persist := Ok tt |}.

(** A run whose scraper throws. *)
Definition offlineWorld : World :=
  {| w_prepare := Ok tt;
     w_scrape := Throw "Error: getaddrinfo ENOTFOUND example.com";
     w_findHtmlFiles := Ok (ldJsonFile :: nil);
     w_findAllFiles := Ok (indexAsset :: nil);
     w_now := "2024-01-01T00:00:00.000Z";
     w_persist := Ok tt |}.

(** The options of a run that only lists the downloaded assets. *)
Definition listingOnlyOptions : FetchOptions :=
  {| opt_url := "https://example.com/";
     opt_outputDir := "./fetched";
     opt_extractContent := Some false;
     opt_generateLlmsTxt := None;
     opt_generateMarkdown := None |}.

(** How the two directory walks relate on one item: they fail alike, or
    the HTML files are among all files, in the same order. *)
Definition walksAgree (path_join : string -> string -> string)
    (dir : string) (item : Dirent) : Prop :=
  match visitHtml path_join dir item, visitAll path_join dir item with
  | Ok html, Ok all => Subsequence html all
  | Throw e1, Throw e2 => e1 = e2
  | _, _ => False
  end.

(** A download directory: one host folder with two pages, a style sheet
    and an empty image folder. *)
Definition exampleListing : list Dirent :=
  DirEnt "example.com"
    (Ok (FileEnt "index.html"
         :: DirEnt "css" (Ok (FileEnt "site.css" :: nil))
         :: FileEnt "about.htm"
         :: DirEnt "img" (Ok nil)
         :: nil))
  :: nil.

(** The same directory with a folder that cannot be listed. *)
Definition lockedListing : list Dirent :=
  DirEnt "example.com"
    (Ok (FileEnt "index.html"
         :: DirEnt "private" (Throw "Error: EACCES: permission denied")
         :: FileEnt "about.htm"
         :: nil))
  :: nil.

(** The exception [repeat] raises for the count -1. *)
Definition ERR_REPEAT : string := "RangeError: Invalid count value: -1".

(** The opening lines of the Markdown report. *)
Definition reportHeader (domain now : string) (count : nat) : list string :=
  ("# Website Content: " ++ domain) :: "" :: ("Fetched: " ++ now)
  :: ("Total Pages: " ++ showNat count) :: "" :: "---" :: "" :: nil.

(** The heading level is not 0. *)
Definition levelPositive (h : Heading) : bool :=
  match heading_level h with
  | Some O => false
  | _ => true
  end.

(** A page with twelve paragraphs, two headings and an image without
    alternative text. *)
Definition pageTwelve : PageContent nat :=
  {| url := "https://example.com/docs/"; path := "/docs/"; title := "Docs";
     description := Some "All the documents";
     headings := mkHeading (Some 1) "Docs" :: mkHeading (Some 3) "Deep"
                 :: nil;
     paragraphs := "p01" :: "p02" :: "p03" :: "p04" :: "p05" :: "p06"
                   :: "p07" :: "p08" :: "p09" :: "p10" :: "p11" :: "p12"
                   :: nil;
     lists := nil; links := nil;
     images := mkImageInfo "/logo.png" "" :: nil;
     metadata := mkPageMetadata None None None None None None None nil;
     rawHtml := ""; extractedText := "" |}.

(** A page record with a heading of level 0. *)
Definition pageLevelZero : PageContent nat :=
  examplePage "https://example.com/broken" "/broken" "Broken" None
    (mkHeading (Some 0) "Nowhere" :: nil) nil.

(** The number of assets of one type. *)
Definition countType (type : AssetType) (assets : list AssetInfo) : nat :=
  List.length (filter (fun a => AssetType_eqb (asset_type a) type) assets).

(** The sum of the counts of an [assetTypes] object. *)
Definition totalCount (acc : TypeCounts) : nat :=
  fold_right (fun entry n => snd entry + n) 0 acc.

(** What the counts of an [assetTypes] object must be after [seen]. *)
Definition countsMatch (acc : TypeCounts) (seen : list AssetInfo) : Prop :=
  NoDup (map fst acc)
  /\ forall type,
       getCount acc type
       = if (countType type seen =? 0)%nat then None
         else Some (countType type seen).

(** Six errors, one more than the [fetch] command prints. *)
Definition sixErrors : list string :=
  "e1" :: "e2" :: "e3" :: "e4" :: "e5" :: "e6" :: nil.

(* ================================================================= *)
(** ** Facts about the string primitives *)

Section StringFacts.

Lemma prefix_empty (s : string) : String.prefix "" s = true.
Proof. destruct s; reflexivity. Qed.

Lemma startsWith_cons (c d : ascii) (s p : string) :
  JS.startsWith (String c s) (String d p)
  = Ascii.eqb d c && JS.startsWith s p.
Proof.
  unfold JS.startsWith; simpl.
  destruct (ascii_dec d c) as [->|Hne].
  - now rewrite Ascii.eqb_refl.
  - apply Ascii.eqb_neq in Hne. now rewrite Hne.
Qed.

Lemma startsWith_empty (s : string) : JS.startsWith s "" = true.
Proof. apply prefix_empty. Qed.

Lemma startsWith_of_empty (c : ascii) (p : string) :
  JS.startsWith "" (String c p) = false.
Proof. reflexivity. Qed.

Lemma startsWith_app (p s : string) : JS.startsWith (p ++ s) p = true.
Proof.
  induction p as [|c p IH]; simpl.
  - apply startsWith_empty.
  - now rewrite startsWith_cons, Ascii.eqb_refl.
Qed.

Lemma slice_zero (s : string) : JS.slice s 0 = s.
Proof. destruct s; reflexivity. Qed.

Lemma slice_app (p s : string) : JS.slice (p ++ s) (String.length p) = s.
Proof.
  induction p as [|c p IH]; simpl.
  - apply slice_zero.
  - exact IH.
Qed.

Lemma startsWith_split (s p : string) :
  JS.startsWith s p = true -> s = p ++ JS.slice s (String.length p).
Proof.
  revert s; induction p as [|c p IH]; intros s H; simpl.
  - now rewrite slice_zero.
  - destruct s as [|d s]; [discriminate|].
    rewrite startsWith_cons in H. apply andb_true_iff in H as [Hc Hp].
    apply Ascii.eqb_eq in Hc; subst d.
    simpl. f_equal. now apply IH.
Qed.

Lemma append_empty_r (s : string) : s ++ "" = s.
Proof. induction s; simpl; congruence. Qed.

Lemma append_assoc (a b c : string) : (a ++ b) ++ c = a ++ (b ++ c).
Proof. induction a; simpl; congruence. Qed.

Lemma length_append (a b : string) :
  String.length (a ++ b) = String.length a + String.length b.
Proof. induction a; simpl; congruence. Qed.

Lemma substring_all (s : string) (n : nat) :
  String.length s <= n -> substring 0 n s = s.
Proof.
  revert n; induction s as [|c s IH]; intros [|n] H; simpl in *;
    try reflexivity; try lia.
  f_equal. apply IH. lia.
Qed.

Lemma length_substring (s : string) (n : nat) :
  n <= String.length s -> String.length (substring 0 n s) = n.
Proof.
  revert n; induction s as [|c s IH]; intros [|n] H; simpl in *;
    try reflexivity; try lia.
  f_equal. apply IH. lia.
Qed.

Lemma normalizeHostname_www (h : string) :
  normalizeHostname ("www." ++ h) = h.
Proof.
  unfold normalizeHostname, JS.removePrefix.
  now rewrite (startsWith_app "www." h), (slice_app "www." h).
Qed.

Lemma normalizeHostname_plain (h : string) :
  JS.startsWith h "www." = false -> normalizeHostname h = h.
Proof.
  intros H. unfold normalizeHostname, JS.removePrefix. now rewrite H.
Qed.

End StringFacts.

(* ================================================================= *)
(** ** URL admission *)

(** C1 (as amended).  For a seed and two candidates that resolve to the
    same URL except that the second is on [www.h] where the first is on
    [h], the admission predicate answers the same, provided [h] does not
    itself begin with [www.]: [normalizeHostname] removes one leading
    [www.] and no more. *)
Theorem admission_www_same_origin :
  forall (URL_new : string -> option URL)
         (URL_new_base : string -> string -> option URL)
         (seed onH onWwwH : string) (u1 u2 : URL),
    URL_new_base onH seed = Some u1 ->
    URL_new_base onWwwH seed = Some u2 ->
    hostname u2 = "www." ++ hostname u1 ->
    protocol u2 = protocol u1 ->
    pathname u2 = pathname u1 ->
    JS.startsWith (hostname u1) "www." = false ->
    admission URL_new URL_new_base onH seed
    = admission URL_new URL_new_base onWwwH seed.
Proof.
  intros URL_new URL_new_base seed c1 c2 u1 u2 H1 H2 Hhost Hproto Hpath Hnw.
  unfold admission. destruct (URL_new seed) as [b|]; [|reflexivity].
  f_equal. unfold urlFilter. rewrite H1, H2, Hhost, Hproto, Hpath.
  now rewrite normalizeHostname_www, (normalizeHostname_plain _ Hnw).
Qed.

Lemma admission_www_same_origin_witness :
  admission exampleURL exampleURLBase
        "https://example.com/about" "https://www.example.com/"
  = admission exampleURL exampleURLBase
          "https://www.example.com/about" "https://www.example.com/"
  /\ admission exampleURL exampleURLBase
           "https://example.com/about" "https://www.example.com/"
     = Some true.
Proof.
  split.
  - apply (@admission_www_same_origin exampleURL exampleURLBase
             "https://www.example.com/"
             "https://example.com/about" "https://www.example.com/about"
             (mkURL "https:" "example.com" "/about" "https://example.com")
             (mkURL "https:" "www.example.com" "/about"
                    "https://www.example.com"));
      reflexivity.
  - reflexivity.
Defined.

(** C1 fails as stated when [h] itself begins with [www.]: with the seed on
    [example.com], the candidate on [h = www.example.com] is admitted and
    the same URL on [www.h] is not. *)
Lemma admission_www_counterexample :
  let seed := "https://example.com/" in
  let onH := "https://www.example.com/" in
  let onWwwH := "https://www.www.example.com/" in
  exists u1 u2,
    exampleURLBase onH seed = Some u1
    /\ exampleURLBase onWwwH seed = Some u2
    /\ hostname u2 = "www." ++ hostname u1
    /\ protocol u2 = protocol u1
    /\ pathname u2 = pathname u1
    /\ admission exampleURL exampleURLBase onH seed = Some true
    /\ admission exampleURL exampleURLBase onWwwH seed = Some false.
Proof.
  do 2 eexists. repeat split; reflexivity.
Qed.

(** The revision of [urlFilter] under [src/] compares host names exactly:
    there the seed's own host and its [www.] form already differ. *)
Example src_urlFilter_www :
  SrcCrawler.urlFilter exampleURL
    (mkURL "https:" "example.com" "/" "https://example.com")
    "https://example.com/" = true
  /\ SrcCrawler.urlFilter exampleURL
       (mkURL "https:" "example.com" "/" "https://example.com")
       "https://www.example.com/" = false.
Proof. split; reflexivity. Qed.

(* ================================================================= *)
(** ** Path reconstruction *)

Section ReconstructFacts.

Lemma startsWith_longer (s p q : string) :
  JS.startsWith s p = false -> JS.startsWith s (p ++ q) = false.
Proof.
  revert s; induction p as [|c p IH]; intros s H.
  - now rewrite startsWith_empty in H.
  - destruct s as [|d s]; [reflexivity|].
    simpl. rewrite startsWith_cons in *.
    destruct (Ascii.eqb c d); simpl in *; auto.
Qed.

Lemma stripHost_untouched (relativePath : string) (hosts : list string) :
  JS.startsWith relativePath "/" = false ->
  forallb (fun host =>
             (host =? "") || negb (JS.startsWith relativePath host))
          hosts = true ->
  stripHost relativePath hosts = relativePath.
Proof.
  intros Hslash. induction hosts as [|host rest IH]; intros Hall.
  - reflexivity.
  - simpl in Hall. apply andb_true_iff in Hall as [Hhost Hrest].
    simpl. apply orb_true_iff in Hhost as [He|Hn].
    + apply String.eqb_eq in He; subst host. simpl.
      rewrite Hslash, startsWith_empty. apply slice_zero.
    + apply negb_true_iff in Hn.
      rewrite (startsWith_longer _ _ "/" Hn), Hn. now apply IH.
Qed.

Lemma startsWith_firstSegment (relativePath host : string) :
  JS.startsWith (firstSegment relativePath) host = true ->
  JS.startsWith relativePath host = true.
Proof.
  revert relativePath; induction host as [|c host IH]; intros rel H.
  - apply startsWith_empty.
  - destruct rel as [|d rel]; [discriminate|].
    simpl in H. destruct (Ascii.eqb d "/"%char); [discriminate|].
    rewrite startsWith_cons in *.
    apply andb_true_iff in H as [Hc Hp]. rewrite Hc. simpl. now apply IH.
Qed.

Lemma startsWith_host_slash (relativePath host : string) :
  JS.startsWith (firstSegment relativePath) host = true ->
  firstSegment relativePath <> host ->
  JS.startsWith relativePath (host ++ "/") = false.
Proof.
  revert relativePath; induction host as [|c host IH]; intros rel H Hne.
  - destruct rel as [|d rel]; [reflexivity|].
    simpl in *. rewrite startsWith_cons.
    destruct (Ascii.eqb d "/"%char) eqn:Hd; [congruence|].
    rewrite Ascii.eqb_sym, Hd. reflexivity.
  - destruct rel as [|d rel]; [discriminate|].
    simpl in *. destruct (Ascii.eqb d "/"%char); [discriminate|].
    rewrite startsWith_cons in *.
    apply andb_true_iff in H as [Hc Hp]. rewrite Hc. simpl.
    apply IH; [assumption|].
    apply Ascii.eqb_eq in Hc; subst d. congruence.
Qed.

Lemma stripHost_head_slash (host rest : string) (hosts : list string) :
  stripHost (host ++ "/" ++ rest) (host :: hosts) = rest.
Proof.
  cbn [stripHost].
  rewrite <- (append_assoc host "/" rest).
  rewrite (startsWith_app (host ++ "/") rest).
  replace (String.length host + 1) with (String.length (host ++ "/"))
    by (rewrite length_append; reflexivity).
  apply slice_app.
Qed.

Lemma substring_slice (s : string) (n : nat) :
  substring 0 n s ++ JS.slice s n = s.
Proof.
  revert n; induction s as [|c s IH]; intros [|n]; simpl;
    try reflexivity.
  f_equal. apply IH.
Qed.

Lemma endsWith_iff (s suffix : string) :
  JS.endsWith s suffix = true <-> exists pre, s = pre ++ suffix.
Proof.
  unfold JS.endsWith. split.
  - intros H. apply andb_true_iff in H as [_ H].
    apply String.eqb_eq in H.
    remember (String.length s - String.length suffix) as k eqn:Hk.
    clear Hk. exists (substring 0 k s).
    rewrite <- H. symmetry. apply substring_slice.
  - intros [pre ->]. rewrite length_append. apply andb_true_iff. split.
    + apply Nat.leb_le. lia.
    + replace (String.length pre + String.length suffix
               - String.length suffix) with (String.length pre) by lia.
      rewrite slice_app. apply String.eqb_refl.
Qed.

Lemma cleanPath_other (s : string) :
  JS.endsWith s ".html" = false -> cleanPath s = s.
Proof.
  intros H. unfold cleanPath, JS.replaceSuffix.
  destruct (JS.endsWith s "/index.html") eqn:Hidx.
  - apply endsWith_iff in Hidx as [pre ->].
    assert (Hc : JS.endsWith (pre ++ "/index.html") ".html" = true).
    { apply endsWith_iff. exists (pre ++ "/index").
      now rewrite append_assoc. }
    congruence.
  - now rewrite H.
Qed.

Lemma firstSegment_whole (s : string) :
  JS.startsWith (firstSegment s) s = true -> firstSegment s = s.
Proof.
  induction s as [|c s IH]; intros H; [reflexivity|].
  simpl in *. destruct (Ascii.eqb c "/"%char); [discriminate|].
  rewrite startsWith_cons in H. apply andb_true_iff in H as [_ H].
  f_equal. now apply IH.
Qed.

End ReconstructFacts.

(** Where the bare-prefix branch of the host-folder loop is not taken, the
    two file names map as intended: when no host variant of the seed (its
    hostname, the hostname without a leading [www.], and [www.] before
    that) is a non-empty prefix of the path, [index.html] maps to the
    origin with a trailing slash and [about.html] to the origin followed by
    [/about]; and for every seed and path, a remaining path that is empty
    or exactly [index.html] gives the origin with a trailing slash. *)
Theorem reconstructUrl_index_and_about :
  forall (URL_new : string -> option URL) (seed : string) (base : URL),
    URL_new seed = Some base ->
    (hostPrefixFree base "index.html" = true ->
     reconstructUrl URL_new seed "index.html" = Ok (origin base ++ "/"))
    /\ (hostPrefixFree base "about.html" = true ->
        reconstructUrl URL_new seed "about.html"
        = Ok (origin base ++ "/about"))
    /\ (forall relativePath,
          let pathWithoutHost :=
            stripHost relativePath (hostVariants base) in
          pathWithoutHost = "" \/ pathWithoutHost = "index.html" ->
          reconstructUrl URL_new seed relativePath
          = Ok (origin base ++ "/")).
Proof.
  intros URL_new seed base Hseed. unfold reconstructUrl. rewrite Hseed.
  split; [|split].
  - intros Hfree.
    rewrite (stripHost_untouched "index.html" (hostVariants base));
      [reflexivity | reflexivity | exact Hfree].
  - intros Hfree.
    rewrite (stripHost_untouched "about.html" (hostVariants base));
      [reflexivity | reflexivity | exact Hfree].
  - intros rel [Hp|Hp]; unfold originPlus; now rewrite Hp.
Qed.

Lemma reconstructUrl_index_and_about_witness :
  reconstructUrl exampleURL "https://www.example.com/" "index.html"
  = Ok "https://www.example.com/"
  /\ reconstructUrl exampleURL "https://www.example.com/" "about.html"
     = Ok "https://www.example.com/about"
  /\ reconstructUrl exampleURL "https://www.example.com/"
       "example.com/index.html"
     = Ok "https://www.example.com/".
Proof.
  destruct (@reconstructUrl_index_and_about exampleURL
              "https://www.example.com/"
              (mkURL "https:" "www.example.com" "/" "https://www.example.com")
              eq_refl) as (Hindex & Habout & Hrest).
  split; [exact (Hindex eq_refl) | split; [exact (Habout eq_refl)|]].
  apply (Hrest "example.com/index.html"). right. reflexivity.
Defined.

(** C2 (defect of the code).  [index.html] is to map to the origin with a
    trailing slash and [about.html] to the origin followed by [/about], for
    every seed.  The code misses this when the seed's hostname is a prefix
    of the file name: the loop then strips the hostname although no host
    folder is there (its second branch asks for no separator).  On host [i]
    the file [index.html] becomes [http://i/ndex], and on host [about] the
    file [about.html] becomes [http://about/].  The branch that asks for
    the separator maps the same page below its host folder as intended, and
    so does the other revision of the function on the two bare names. *)
Theorem reconstructUrl_host_prefix_defect :
  exampleURL "http://i/" = Some (mkURL "http:" "i" "/" "http://i")
  /\ reconstructUrl exampleURL "http://i/" "index.html" = Ok "http://i/ndex"
  /\ reconstructUrl exampleURL "http://i/" "index.html" <> Ok "http://i/"
  /\ exampleURL "http://about/"
     = Some (mkURL "http:" "about" "/" "http://about")
  /\ reconstructUrl exampleURL "http://about/" "about.html"
     = Ok "http://about/"
  /\ reconstructUrl exampleURL "http://about/" "about.html"
     <> Ok "http://about/about"
  /\ reconstructUrl exampleURL "http://about/" "about/about.html"
     = Ok "http://about/about"
  /\ SrcCrawler.reconstructUrl exampleURL "http://i/" "index.html"
     = Ok "http://i/"
  /\ SrcCrawler.reconstructUrl exampleURL "http://about/" "about.html"
     = Ok "http://about/about".
Proof.
  split; [reflexivity|]. split; [reflexivity|]. split; [discriminate|].
  split; [reflexivity|]. split; [reflexivity|]. split; [discriminate|].
  repeat split; reflexivity.
Qed.

(** The revision of [reconstructUrl] under [src/] strips no host folder
    and maps the two names to the origin with a slash and to the origin
    followed by [/about] for every seed. *)
Lemma src_reconstructUrl_index_and_about
    (URL_new : string -> option URL) (seed : string) (base : URL) :
  URL_new seed = Some base ->
  SrcCrawler.reconstructUrl URL_new seed "index.html"
  = Ok (origin base ++ "/")
  /\ SrcCrawler.reconstructUrl URL_new seed "about.html"
     = Ok (origin base ++ "/about").
Proof.
  intros H. unfold SrcCrawler.reconstructUrl. rewrite H. split; reflexivity.
Qed.

(** C9.  When the first segment of the path begins with the seed's
    hostname [H] without being [H], the loop takes its bare-prefix branch
    at the first variant: exactly the first [length H] characters are
    removed, the result is the one returned for the path with a slash
    after [H], and the URL is built from the remainder: the origin and a
    slash, followed by the cleaned remainder unless that is [index.html]. *)
Theorem reconstructUrl_bare_prefix :
  forall (URL_new : string -> option URL) (seed : string) (base : URL)
         (relativePath : string),
    URL_new seed = Some base ->
    JS.startsWith (firstSegment relativePath) (hostname base) = true ->
    firstSegment relativePath <> hostname base ->
    let H := hostname base in
    let remainder := JS.slice relativePath (String.length H) in
    relativePath = H ++ remainder
    /\ stripHost relativePath (hostVariants base) = remainder
    /\ reconstructUrl URL_new seed relativePath
       = reconstructUrl URL_new seed (H ++ "/" ++ remainder)
    /\ reconstructUrl URL_new seed relativePath
       = Ok (if remainder =? "index.html"
             then origin base ++ "/"
             else origin base ++ "/" ++ cleanPath remainder)
    /\ (JS.endsWith remainder ".html" = false ->
        reconstructUrl URL_new seed relativePath
        = Ok (origin base ++ "/" ++ remainder)).
Proof.
  intros URL_new seed base rel Hseed Hpre Hne H remainder.
  assert (Hbare : JS.startsWith rel H = true)
    by now apply startsWith_firstSegment.
  assert (Hslash : JS.startsWith rel (H ++ "/") = false)
    by now apply startsWith_host_slash.
  assert (Hstrip : stripHost rel (hostVariants base) = remainder).
  { unfold hostVariants. cbn [stripHost]. fold H.
    now rewrite Hslash, Hbare. }
  assert (Hrem : remainder <> "").
  { intros He. apply Hne. fold H.
    pose proof (startsWith_split _ _ Hbare) as Hsplit.
    fold remainder in Hsplit. rewrite He, append_empty_r in Hsplit.
    rewrite Hsplit in *. now apply firstSegment_whole. }
  assert (Hurl : reconstructUrl URL_new seed rel
                 = Ok (if remainder =? "index.html"
                       then origin base ++ "/"
                       else origin base ++ "/" ++ cleanPath remainder)).
  { unfold reconstructUrl. rewrite Hseed, Hstrip. unfold originPlus.
    apply String.eqb_neq in Hrem. now rewrite Hrem, orb_false_r. }
  split; [|split; [|split; [|split]]].
  - now apply startsWith_split.
  - exact Hstrip.
  - unfold reconstructUrl. rewrite Hseed, Hstrip. do 2 f_equal.
    unfold hostVariants. fold H. now rewrite stripHost_head_slash.
  - exact Hurl.
  - intros Hext. rewrite Hurl, (cleanPath_other _ Hext).
    destruct (remainder =? "index.html") eqn:Hidx; [|reflexivity].
    apply String.eqb_eq in Hidx. rewrite Hidx in Hext. discriminate.
Qed.

Lemma reconstructUrl_bare_prefix_witness :
  firstSegment "example.communication/x.html" = "example.communication"
  /\ reconstructUrl exampleURL "https://example.com/"
       "example.communication/x.html"
     = Ok "https://example.com/munication/x"
  /\ reconstructUrl exampleURL "https://example.com/"
       "example.communication/x.html"
     = reconstructUrl exampleURL "https://example.com/"
         "example.com/munication/x.html".
Proof.
  assert (Hne : firstSegment "example.communication/x.html"
                <> "example.com") by discriminate.
  destruct (@reconstructUrl_bare_prefix exampleURL "https://example.com/"
              (mkURL "https:" "example.com" "/" "https://example.com")
              "example.communication/x.html" eq_refl eq_refl Hne)
    as (_ & _ & Hfolder & Hurl & _).
  split; [reflexivity | split; [exact Hurl | exact Hfolder]].
Defined.

(* ================================================================= *)
(** ** Page extraction *)

Section ExtractorFacts.

Variable URL_new : string -> option URL.
Variable json : Type.
Variable JSON_parse : string -> option json.
Variable cheerio_load : string -> Cheerio.

Lemma each_filter_map (A B : Type) (keep : A -> bool) (make : A -> B)
    (els : list A) (arr : list B) :
  each els (fun arr el => if keep el then push arr (make el) else arr) arr
  = (arr ++ map make (filter keep els))%list.
Proof.
  unfold each. revert arr; induction els as [|el els IH]; intros arr; simpl.
  - now rewrite app_nil_r.
  - rewrite IH. destruct (keep el); [|reflexivity].
    unfold push. now rewrite <- app_assoc.
Qed.

Lemma each_flat_map (A B : Type) (make : A -> list B)
    (els : list A) (arr : list B) :
  each els (fun arr el => (arr ++ make el)%list) arr
  = (arr ++ flat_map make els)%list.
Proof.
  unfold each. revert arr; induction els as [|el els IH]; intros arr; simpl.
  - now rewrite app_nil_r.
  - rewrite IH. now rewrite <- app_assoc.
Qed.

Lemma longer_is_truthy (text : string) (n : nat) :
  (JS.truthy text && (n <? String.length text)%nat)
  = (n <? String.length text)%nat.
Proof.
  destruct text; simpl; [|reflexivity].
  symmetry. apply Nat.ltb_ge. lia.
Qed.

Lemma extractParagraphs_filter (doc : Cheerio) :
  extractParagraphs doc
  = filter (fun text => (20 <? String.length text)%nat)
           (map JS.trim (q_p doc)).
Proof.
  unfold extractParagraphs.
  rewrite (each_filter_map
             (fun el => JS.truthy (JS.trim el)
                        && (20 <? String.length (JS.trim el))%nat)
             JS.trim).
  simpl. induction (q_p doc) as [|el els IH]; simpl; [reflexivity|].
  rewrite longer_is_truthy.
  destruct (20 <? String.length (JS.trim el))%nat; simpl; now rewrite IH.
Qed.

Lemma extractLinks_map (doc : Cheerio) (baseUrl : URL) :
  extractLinks doc baseUrl
  = map (linkOf baseUrl) (filter keptAnchor (q_a_href doc)).
Proof.
  unfold extractLinks.
  now rewrite (each_filter_map keptAnchor (linkOf baseUrl)).
Qed.

Lemma extractStructuredData_blocks (doc : Cheerio) :
  extractStructuredData JSON_parse doc = flat_map (parsedBlock JSON_parse) (q_ld_json doc).
Proof.
  unfold extractStructuredData, each.
  enough (Hgen : forall arr,
             fold_left
               (fun structuredData el =>
                  match JSON_parse (JS.orEmpty el) with
                  | Some value => push structuredData value
                  | None => structuredData
                  end) (q_ld_json doc) arr
             = (arr ++ flat_map (parsedBlock JSON_parse) (q_ld_json doc))%list)
    by apply (Hgen nil).
  induction (q_ld_json doc) as [|el els IH]; intros arr; simpl.
  - now rewrite app_nil_r.
  - rewrite IH. unfold parsedBlock at 2.
    destruct (JSON_parse (JS.orEmpty el)); [|reflexivity].
    unfold push. now rewrite <- app_assoc.
Qed.

End ExtractorFacts.

(** C3 (as amended).  For every link of an extracted page, [isExternal] is
    true exactly when the href begins with [http] and the href, as a whole
    string and not only its host, does not contain the page's hostname. *)
Theorem link_isExternal_iff :
  forall (URL_new : string -> option URL) (json : Type)
         (JSON_parse : string -> option json)
         (cheerio_load : string -> Cheerio)
         (html pageUrl : string) (page : PageContent json) (base : URL),
    extractPageContent URL_new JSON_parse cheerio_load html pageUrl = Ok page ->
    URL_new pageUrl = Some base ->
    links page
    = map (linkOf base) (filter keptAnchor (q_a_href (cheerio_load html)))
    /\ forall link,
         In link (links page) ->
         (isExternal link = true
          <-> JS.startsWith (link_href link) "http" = true
              /\ JS.includes (link_href link) (hostname base) = false).
Proof.
  intros URL_new json JSON_parse load html pageUrl page base Hpage Hbase.
  unfold extractPageContent in Hpage. rewrite Hbase in Hpage.
  injection Hpage as <-. cbn [links]. rewrite extractLinks_map.
  split; [reflexivity|].
  intros link Hin. apply in_map_iff in Hin as (el & <- & _).
  unfold linkOf; cbn [isExternal link_href].
  rewrite andb_true_iff, negb_true_iff. reflexivity.
Qed.

Lemma link_isExternal_iff_witness :
  exists page,
    extractPageContent exampleURL exampleJSON exampleLoad
      html_partner_link "https://example.com/" = Ok page
    /\ links page
       = mkLinkInfo "https://other.org/?ref=example.com" "partner" false
         :: nil.
Proof.
  eexists. split; [reflexivity|].
  apply (@link_isExternal_iff exampleURL nat exampleJSON exampleLoad
           html_partner_link "https://example.com/" _
           (mkURL "https:" "example.com" "/" "https://example.com")
           eq_refl eq_refl).
Defined.

(** C3 fails as stated: the link below begins with [http] and its host,
    [other.org], does not contain the page's hostname [example.com], yet it
    is not flagged external, because the hostname occurs in its query. *)
Lemma link_isExternal_counterexample :
  exists page link hrefUrl,
    extractPageContent exampleURL exampleJSON exampleLoad
      html_partner_link "https://example.com/" = Ok page
    /\ In link (links page)
    /\ exampleURL (link_href link) = Some hrefUrl
    /\ JS.startsWith (link_href link) "http" = true
    /\ JS.includes (hostname hrefUrl) "example.com" = false
    /\ isExternal link = false.
Proof.
  do 3 eexists. split; [reflexivity|].
  split; [left; reflexivity|]. repeat split; reflexivity.
Qed.

(** C5.  The paragraphs of an extracted page are the trimmed texts of the
    paragraph elements that are strictly longer than 20 characters, in
    document order: a paragraph element is included exactly when its
    trimmed text has more than 20 characters, so one of 20 is left out and
    one of 21 is kept. *)
Theorem paragraph_threshold :
  forall (URL_new : string -> option URL) (json : Type)
         (JSON_parse : string -> option json)
         (cheerio_load : string -> Cheerio)
         (html pageUrl : string) (page : PageContent json),
    extractPageContent URL_new JSON_parse cheerio_load html pageUrl = Ok page ->
    paragraphs page
    = filter (fun text => (20 <? String.length text)%nat)
             (map JS.trim (q_p (cheerio_load html)))
    /\ (forall el,
          In el (q_p (cheerio_load html)) ->
          (In (JS.trim el) (paragraphs page)
           <-> 20 < String.length (JS.trim el)))
    /\ (forall el,
          In el (q_p (cheerio_load html)) ->
          String.length (JS.trim el) = 20 ->
          ~ In (JS.trim el) (paragraphs page))
    /\ (forall el,
          In el (q_p (cheerio_load html)) ->
          String.length (JS.trim el) = 21 ->
          In (JS.trim el) (paragraphs page)).
Proof.
  intros URL_new json JSON_parse load html pageUrl page Hpage.
  unfold extractPageContent in Hpage.
  destruct (URL_new pageUrl) as [base|]; [|discriminate].
  injection Hpage as <-. cbn [paragraphs]. rewrite extractParagraphs_filter.
  assert (Hiff : forall el,
             In el (q_p (load html)) ->
             (In (JS.trim el)
                 (filter (fun text => (20 <? String.length text)%nat)
                         (map JS.trim (q_p (load html))))
              <-> 20 < String.length (JS.trim el))).
  { intros el Hel. rewrite filter_In, Nat.ltb_lt. split.
    - now intros [_ H].
    - intros H. split; [now apply in_map | exact H]. }
  split; [reflexivity | split; [exact Hiff | split]].
  - intros el Hel Hlen Hin. apply (Hiff el Hel) in Hin. lia.
  - intros el Hel Hlen. apply (Hiff el Hel). lia.
Qed.

Lemma paragraph_threshold_witness :
  exists page,
    extractPageContent exampleURL exampleJSON exampleLoad
      html_two_paragraphs "https://example.com/" = Ok page
    /\ String.length (JS.trim " 12345678901234567890 ") = 20
    /\ String.length (JS.trim "123456789012345678901") = 21
    /\ paragraphs page = "123456789012345678901" :: nil.
Proof.
  eexists. split; [reflexivity|]. split; [reflexivity|].
  split; [reflexivity|].
  apply (@paragraph_threshold exampleURL nat exampleJSON exampleLoad
           html_two_paragraphs "https://example.com/" _ eq_refl).
Defined.

(* ================================================================= *)
(** ** The run and its error list *)

(** C7.  Whenever [fetchWebsite] returns a result, its [success] flag is
    true exactly when its error list is empty; and a run whose scraper
    returns and whose download directory holds no file at all ends with no
    page, no asset, no error, and [success] set. *)
Theorem success_iff_no_errors :
  forall (URL_new : string -> option URL) (json : Type)
         (JSON_parse : string -> option json)
         (cheerio_load : string -> Cheerio)
         (options : FetchOptions) (w : World),
    (forall result,
        fetchWebsite URL_new JSON_parse cheerio_load options w = Ok result ->
        (success result = true <-> errors result = nil))
    /\ (forall base resources,
          URL_new (opt_url options) = Some base ->
          w_prepare w = Ok tt ->
          w_scrape w = Ok resources ->
          w_findHtmlFiles w = Ok nil ->
          w_findAllFiles w = Ok nil ->
          w_persist w = Ok tt ->
          exists result,
            fetchWebsite URL_new JSON_parse cheerio_load options w = Ok result
            /\ pages (siteContent result) = nil
            /\ assets (siteContent result) = nil
            /\ totalPages (siteContent result) = 0
            /\ totalAssets (siteContent result) = 0
            /\ errors result = nil
            /\ success result = true).
Proof.
  intros URL_new json JSON_parse load options w. split.
  - intros result H. unfold fetchWebsite in H.
    destruct (URL_new (opt_url options)); [|discriminate].
    destruct (w_prepare w); [|discriminate].
    destruct (if withDefault true (opt_generateLlmsTxt options)
              then _ else _); [|discriminate].
    destruct (w_persist w); [|discriminate].
    injection H as <-. cbn [success errors].
    rewrite Nat.eqb_eq. apply length_zero_iff_nil.
  - intros base resources Hseed Hprep Hscrape Hhtml Hall Hpersist.
    unfold fetchWebsite. rewrite Hseed, Hprep.
    assert (Hrun : scrapeAndExtract URL_new JSON_parse load (opt_url options)
                     (withDefault true (opt_extractContent options)) w
                     (mkRun nil nil nil)
                   = (Ok tt, mkRun nil nil nil)).
    { unfold scrapeAndExtract, tryCatch, bind, await.
      rewrite Hscrape, Hall.
      destruct (withDefault true (opt_extractContent options));
        [rewrite Hhtml|]; reflexivity. }
    rewrite Hrun. cbn [snd run_errors run_pages run_assets].
    unfold generateLlmsTxt. rewrite Hseed, Hpersist.
    destruct (withDefault true (opt_generateLlmsTxt options));
      eexists; repeat split; reflexivity.
Qed.

Lemma success_iff_no_errors_witness :
  exists result,
    fetchWebsite exampleURL exampleJSON exampleLoad
      exampleOptions emptySiteWorld = Ok result
    /\ totalPages (siteContent result) = 0
    /\ totalAssets (siteContent result) = 0
    /\ errors result = nil
    /\ (success result = true <-> errors result = nil)
    /\ success result = true.
Proof.
  destruct (@success_iff_no_errors exampleURL nat exampleJSON exampleLoad
              exampleOptions emptySiteWorld) as [Hiff Hempty].
  destruct (Hempty (mkURL "https:" "example.com" "/" "https://example.com") 0
              eq_refl eq_refl eq_refl eq_refl eq_refl eq_refl)
    as (result & Hres & _ & _ & Hp & Ha & He & Hs).
  exists result.
  split; [exact Hres|]. split; [exact Hp|]. split; [exact Ha|].
  split; [exact He|]. split; [exact (Hiff result Hres) | exact Hs].
Defined.

(** A run whose scraper throws records one error and is not a success. *)
Example failed_scrape_is_not_success :
  exists result,
    fetchWebsite exampleURL exampleJSON exampleLoad exampleOptions
      {| w_prepare := Ok tt;
         w_scrape := Throw "Error: getaddrinfo ENOTFOUND example.com";
         w_findHtmlFiles := Ok nil;
         w_findAllFiles := Ok nil;
         w_now := "2024-01-01T00:00:00.000Z";
         w_persist := Ok tt |} = Ok result
    /\ errors result
       = "Scraping error: Error: getaddrinfo ENOTFOUND example.com" :: nil
    /\ success result = false.
Proof. eexists. repeat split. Qed.

(** C8.  Every [application/ld+json] block is parsed on its own: the
    structured data of a page is, block by block in document order, the
    parsed value of the block or nothing when the block does not parse.  A
    block that fails adds no entry and leaves the entries of the blocks
    before and after it in place; extraction of the page still returns its
    record; and in a run, a file that is read, whose URL parses and whose
    record is written adds its page and no error, whatever its blocks. *)
Theorem malformed_structured_data_is_skipped :
  forall (URL_new : string -> option URL) (json : Type)
         (JSON_parse : string -> option json)
         (cheerio_load : string -> Cheerio),
    (forall doc,
        extractStructuredData JSON_parse doc
        = flat_map (parsedBlock JSON_parse) (q_ld_json doc))
    /\ (forall doc before block after,
          q_ld_json doc = (before ++ block :: after)%list ->
          JSON_parse (JS.orEmpty block) = None ->
          extractStructuredData JSON_parse doc
          = (flat_map (parsedBlock JSON_parse) before
             ++ flat_map (parsedBlock JSON_parse) after)%list)
    /\ (forall html pageUrl base,
          URL_new pageUrl = Some base ->
          exists page,
            extractPageContent URL_new JSON_parse cheerio_load html pageUrl
            = Ok page
            /\ structuredData (metadata page)
               = flat_map (parsedBlock JSON_parse)
                          (q_ld_json (cheerio_load html))
            /\ paragraphs page = extractParagraphs (cheerio_load html)
            /\ headings page = extractHeadings (cheerio_load html))
    /\ (forall seed htmlFile html pageUrl base run,
          hf_readFile htmlFile = Ok html ->
          reconstructUrl URL_new seed (hf_relative htmlFile) = Ok pageUrl ->
          URL_new pageUrl = Some base ->
          hf_writeJson htmlFile = Ok tt ->
          exists page,
            extractPageContent URL_new JSON_parse cheerio_load html pageUrl
            = Ok page
            /\ extractHtmlFile URL_new JSON_parse cheerio_load seed htmlFile
                 run
               = (Ok tt,
                  mkRun (run_errors run) (push (run_pages run) page)
                        (run_assets run))).
Proof.
  intros URL_new json JSON_parse load.
  split; [|split; [|split]].
  - apply extractStructuredData_blocks.
  - intros doc before block after Hblocks Hfail.
    rewrite extractStructuredData_blocks, Hblocks, flat_map_app.
    cbn [flat_map]. unfold parsedBlock at 2. now rewrite Hfail.
  - intros html pageUrl base Hbase. unfold extractPageContent.
    rewrite Hbase. eexists. split; [reflexivity|].
    cbn [metadata structuredData paragraphs headings].
    split; [apply extractStructuredData_blocks | split; reflexivity].
  - intros seed htmlFile html pageUrl base run Hread Hurl Hbase Hwrite.
    unfold extractHtmlFile, tryCatch, bind, await, pushPage.
    rewrite Hread, Hurl. unfold extractPageContent. rewrite Hbase, Hwrite.
    eexists. split; reflexivity.
Qed.

Lemma malformed_structured_data_is_skipped_witness :
  q_ld_json (exampleLoad html_ld_json) = Some "{" :: Some "1" :: nil
  /\ exampleJSON (JS.orEmpty (Some "{")) = None
  /\ extractStructuredData exampleJSON (exampleLoad html_ld_json) = 1 :: nil
  /\ exists page,
       extractPageContent exampleURL exampleJSON exampleLoad html_ld_json
         "https://example.com/" = Ok page
       /\ structuredData (metadata page) = 1 :: nil
       /\ extractHtmlFile exampleURL exampleJSON exampleLoad
            "https://example.com/" ldJsonFile (mkRun nil nil nil)
          = (Ok tt, mkRun nil (page :: nil) nil).
Proof.
  destruct (@malformed_structured_data_is_skipped exampleURL nat exampleJSON
              exampleLoad) as (_ & Hskip & Hpage & Hrun).
  split; [reflexivity|]. split; [reflexivity|]. split.
  - apply (Hskip (exampleLoad html_ld_json) nil (Some "{")
             (Some "1" :: nil) eq_refl eq_refl).
  - destruct (Hrun "https://example.com/" ldJsonFile html_ld_json
                "https://example.com/"
                (mkURL "https:" "example.com" "/" "https://example.com")
                (mkRun nil nil nil) eq_refl eq_refl eq_refl eq_refl)
      as (page & Hextract & Hstep).
    exists page. split; [exact Hextract|]. split; [|exact Hstep].
    destruct (Hpage html_ld_json "https://example.com/"
                (mkURL "https:" "example.com" "/" "https://example.com")
                eq_refl) as (page' & Hextract' & Hdata & _).
    rewrite Hextract in Hextract'. injection Hextract' as <-. exact Hdata.
Defined.

(* ================================================================= *)
(** ** The sitemap *)

Section SortFacts.

Variable A : Type.
Variable compareFn : A -> A -> Z.

Lemma insertSorted_perm (x : A) (arr : list A) :
  Permutation (insertSorted compareFn x arr) (x :: arr).
Proof.
  induction arr as [|y rest IH]; simpl.
  - apply Permutation_refl.
  - destruct (0 <? compareFn x y)%Z.
    + apply perm_trans with (y :: x :: rest).
      * now apply perm_skip.
      * apply perm_swap.
    + apply Permutation_refl.
Qed.

Lemma sort_perm (arr : list A) : Permutation (sort compareFn arr) arr.
Proof.
  induction arr as [|x rest IH]; simpl.
  - apply perm_nil.
  - apply perm_trans with (x :: sort compareFn rest).
    + apply insertSorted_perm.
    + now apply perm_skip.
Qed.

(** Elements that a predicate [same] singles out keep their order,
    provided the comparator never puts one of them behind an element it
    ranks equal or higher. *)
Variable same : A -> bool.
Hypothesis same_not_greater :
  forall x y, same x = true -> same y = true -> (compareFn x y <= 0)%Z.

Lemma insertSorted_filter (x : A) (arr : list A) :
  filter same (insertSorted compareFn x arr) = filter same (x :: arr).
Proof.
  induction arr as [|y rest IH]; [reflexivity|].
  cbn [insertSorted]. destruct (0 <? compareFn x y)%Z eqn:Hgt.
  - cbn [filter] in *. rewrite IH.
    destruct (same x) eqn:Hx, (same y) eqn:Hy; try reflexivity.
    apply Z.ltb_lt in Hgt.
    pose proof (same_not_greater Hx Hy). lia.
  - reflexivity.
Qed.

Lemma sort_filter (arr : list A) :
  filter same (sort compareFn arr) = filter same arr.
Proof.
  induction arr as [|x rest IH]; [reflexivity|].
  cbn [sort]. rewrite insertSorted_filter. cbn [filter]. now rewrite IH.
Qed.

End SortFacts.

Section SitemapFacts.

Variable json : Type.

Lemma insertSorted_HdRel (a x : SitemapEntry) (arr : list SitemapEntry) :
  depthLe a x -> HdRel depthLe a arr ->
  HdRel depthLe a (insertSorted byDepth x arr).
Proof.
  intros Hax Hrel. destruct arr as [|y rest]; simpl.
  - now constructor.
  - inversion Hrel; subst.
    destruct (0 <? byDepth x y)%Z; now constructor.
Qed.

Lemma insertSorted_sorted (x : SitemapEntry) (arr : list SitemapEntry) :
  Sorted depthLe arr -> Sorted depthLe (insertSorted byDepth x arr).
Proof.
  induction arr as [|y rest IH]; intros Hs; simpl.
  - repeat constructor.
  - inversion Hs as [|? ? Hrest Hhd]; subst.
    destruct (0 <? byDepth x y)%Z eqn:Hgt.
    + constructor; [now apply IH|].
      apply insertSorted_HdRel; [|assumption].
      apply Z.ltb_lt in Hgt. unfold byDepth in Hgt. unfold depthLe. lia.
    + constructor; [assumption|]. constructor.
      apply Z.ltb_ge in Hgt. unfold byDepth in Hgt. unfold depthLe. lia.
Qed.

Lemma sort_sorted (arr : list SitemapEntry) :
  Sorted depthLe (sort byDepth arr).
Proof.
  induction arr as [|x rest IH]; simpl.
  - constructor.
  - now apply insertSorted_sorted.
Qed.

Lemma countChar_filter (c : ascii) (s : string) :
  JS.countChar c s
  = List.length (filter (fun d => Ascii.eqb d c) (list_ascii_of_string s)).
Proof.
  induction s as [|d s IH]; simpl; [reflexivity|].
  rewrite IH. now destruct (Ascii.eqb d c).
Qed.

Lemma filter_map_swap (B C : Type) (f : B -> C) (keep : C -> bool)
    (l : list B) :
  filter keep (map f l) = map f (filter (fun b => keep (f b)) l).
Proof.
  induction l as [|b l IH]; simpl; [reflexivity|].
  rewrite IH. now destruct (keep (f b)).
Qed.

End SitemapFacts.

(** C4.  The sitemap has one entry per page (it is a rearrangement of the
    pages' entries), the depth of a page's entry is the number of slash
    characters in its path, the entries are in ascending order of depth,
    and the entries of any one depth are those of the pages of that depth
    in input order. *)
Theorem buildSitemap_sorted_stable :
  forall (json : Type) (pages : list (PageContent json)),
    List.length (buildSitemap pages) = List.length pages
    /\ Permutation (buildSitemap pages) (map (@sitemapEntry json) pages)
    /\ (forall page : PageContent json,
          entry_url (sitemapEntry page) = url page
          /\ entry_title (sitemapEntry page) = title page
          /\ depth (sitemapEntry page)
             = List.length
                 (filter (fun c => Ascii.eqb c "/"%char)
                         (list_ascii_of_string (path page))))
    /\ Sorted (fun a b => depth a <= depth b) (buildSitemap pages)
    /\ StronglySorted (fun a b => depth a <= depth b) (buildSitemap pages)
    /\ (forall d,
          filter (fun e => (depth e =? d)%nat) (buildSitemap pages)
          = map (@sitemapEntry json)
                (filter (fun p => (depth (sitemapEntry p) =? d)%nat) pages)).
Proof.
  intros json pages. unfold buildSitemap.
  assert (Hperm : Permutation (sort byDepth (map (@sitemapEntry json) pages))
                              (map (@sitemapEntry json) pages))
    by apply sort_perm.
  assert (Hsorted : Sorted depthLe
                      (sort byDepth (map (@sitemapEntry json) pages)))
    by apply sort_sorted.
  split; [|split; [|split; [|split; [|split]]]].
  - rewrite (Permutation_length Hperm). apply length_map.
  - exact Hperm.
  - intros page. cbn [sitemapEntry entry_url entry_title depth].
    now rewrite countChar_filter.
  - exact Hsorted.
  - apply Sorted_StronglySorted; [|exact Hsorted].
    intros a b c Hab Hbc. unfold depthLe in *. lia.
  - intros d. rewrite sort_filter.
    + apply filter_map_swap.
    + intros x y Hx Hy. apply Nat.eqb_eq in Hx, Hy. unfold byDepth. lia.
Qed.

(** Pages at [/], [/a/b/], [/a/] and [/x/]: the depths are 1, 3, 2, 2, and
    the two pages of depth 2 keep their input order. *)
Example buildSitemap_example :
  map (fun e => (entry_title e, depth e))
      (buildSitemap
         (examplePage "https://example.com/" "/" "Root" None nil nil
          :: examplePage "https://example.com/a/b/" "/a/b/" "B" None nil nil
          :: examplePage "https://example.com/a/" "/a/" "A" None nil nil
          :: examplePage "https://example.com/x/" "/x/" "X" None nil nil
          :: nil))
  = ("Root", 1) :: ("A", 2) :: ("X", 2) :: ("B", 3) :: nil.
Proof. reflexivity. Qed.

(* ================================================================= *)
(** ** The digest *)

Section DigestFacts.

Variable json : Type.

Lemma fold_left_appends (A B : Type) (step : list B -> A -> list B)
    (added : A -> list B) :
  (forall arr x, step arr x = (arr ++ added x)%list) ->
  forall xs arr, fold_left step xs arr = (arr ++ flat_map added xs)%list.
Proof.
  intros Hstep xs. induction xs as [|x xs IH]; intros arr; simpl.
  - now rewrite app_nil_r.
  - now rewrite IH, Hstep, <- app_assoc.
Qed.

Lemma flat_map_singleton (A B : Type) (f : A -> B) (xs : list A) :
  flat_map (fun x => f x :: nil) xs = map f xs.
Proof. induction xs; simpl; congruence. Qed.

Lemma pushPageLink_appends (lines : list string) (page : PageContent json) :
  pushPageLink lines page = (lines ++ pageLinkLines page)%list.
Proof.
  unfold pushPageLink, pageLinkLines, push.
  destruct (description page) as [d|]; [destruct (JS.truthy d)|];
    now rewrite <- ?app_assoc.
Qed.

Lemma pushPageContent_appends (lines : list string)
    (page : PageContent json) :
  pushPageContent lines page = (lines ++ contentSubsection page)%list.
Proof.
  unfold pushPageContent, contentSubsection, summaryOf.
  rewrite (fold_left_appends
             (fun lines h => push lines ("- " ++ heading_text h))
             (fun h => ("- " ++ heading_text h) :: nil))
    by reflexivity.
  rewrite flat_map_singleton. unfold push.
  destruct (headings page) as [|h hs], (paragraphs page) as [|p0 ps];
    cbn [List.length Nat.ltb Nat.leb orb].
  - now rewrite app_nil_r.
  - destruct (JS.truthy p0); now rewrite <- ?app_assoc.
  - now rewrite <- ?app_assoc.
  - destruct (JS.truthy p0); now rewrite <- ?app_assoc.
Qed.

Lemma llmsTxtLines_layout (pages : list (PageContent json))
    (domain : string) :
  llmsTxtLines pages domain
  = (("# " ++ domain) :: "" :: nil)
    +++ match homepageDescription (find (@isHomepage json) pages) with
        | Some d => if JS.truthy d then ("> " ++ d) :: "" :: nil else nil
        | None => nil
        end
    +++ digestBody pages.
Proof.
  unfold llmsTxtLines, digestBody. fold (@isHomepage json).
  rewrite (fold_left_appends _ _ pushPageContent_appends).
  rewrite (fold_left_appends _ _ pushPageLink_appends).
  unfold push.
  destruct (homepageDescription (find (@isHomepage json) pages)) as [d|];
    [destruct (JS.truthy d)|];
    now rewrite <- ?app_assoc.
Qed.

Lemma find_first (pages before after : list (PageContent json))
    (h : PageContent json) :
  pages = (before ++ h :: after)%list ->
  (forall p, In p before -> isHomepage p = false) ->
  isHomepage h = true ->
  find (@isHomepage json) pages = Some h.
Proof.
  intros -> Hbefore Hh. induction before as [|p before IH]; simpl.
  - now rewrite Hh.
  - rewrite (Hbefore p) by now left.
    apply IH. intros q Hq. apply Hbefore. now right.
Qed.

End DigestFacts.

(** C6.  The digest ends with one subsection per page, and the subsection
    of a page is empty exactly when the page has neither a heading nor a
    paragraph.  A page with a (non-empty) first paragraph gets its title,
    its URL, a bullet per heading of level at most 2, then the first
    paragraph cut to its first 300 characters, followed by three dots
    exactly when it is longer than 300: a longer paragraph becomes 300
    characters and the dots, one of at most 300 is printed as it is. *)
Theorem digest_subsection_and_truncation :
  forall (URL_new : string -> option URL) (json : Type)
         (pages : list (PageContent json)) (baseUrl : string) (base : URL),
    URL_new baseUrl = Some base ->
    generateLlmsTxt URL_new pages baseUrl
    = Ok (JS.join JS.LF
            ((("# " ++ hostname base) :: "" :: nil)
             +++ match homepageDescription (find (@isHomepage json) pages) with
                 | Some d =>
                     if JS.truthy d then ("> " ++ d) :: "" :: nil else nil
                 | None => nil
                 end
             +++ ("## Seiten / Pages" :: "" :: nil)
             +++ flat_map (@pageLinkLines json) pages
             +++ ("" :: "## Inhalt / Content" :: "" :: nil)
             +++ flat_map (@contentSubsection json) pages))
    /\ (forall page : PageContent json,
          contentSubsection page = nil
          <-> headings page = nil /\ paragraphs page = nil)
    /\ (forall (page : PageContent json) p0 rest,
          paragraphs page = p0 :: rest ->
          p0 <> "" ->
          contentSubsection page
          = (("### " ++ title page) :: ("URL: " ++ url page) :: "" :: nil)
            +++ map (fun h => "- " ++ heading_text h)
                    (filter levelAtMost2 (headings page))
            +++ ("" :: (substring 0 300 p0
                        ++ (if (300 <? String.length p0)%nat
                            then "..." else ""))
                    :: "" :: nil))
    /\ (forall p0,
          300 < String.length p0 ->
          summaryOf p0 = substring 0 300 p0 ++ "..."
          /\ String.length (substring 0 300 p0) = 300
          /\ String.length (summaryOf p0) = 303)
    /\ (forall p0, String.length p0 <= 300 -> summaryOf p0 = p0).
Proof.
  intros URL_new json pages baseUrl base Hbase.
  split; [|split; [|split; [|split]]].
  - unfold generateLlmsTxt. rewrite Hbase.
    now rewrite llmsTxtLines_layout.
  - intros page. unfold contentSubsection.
    destruct (headings page) as [|h hs], (paragraphs page) as [|p0 ps];
      split; try discriminate; try (intros [? ?]; discriminate); auto.
  - intros page p0 rest Hpar Hp0. unfold contentSubsection, summaryOf.
    rewrite Hpar. apply String.eqb_neq in Hp0.
    unfold JS.truthy. rewrite Hp0. cbn [negb].
    destruct (headings page); reflexivity.
  - intros p0 Hlen. unfold summaryOf.
    apply Nat.ltb_lt in Hlen as Hlt. rewrite Hlt.
    assert (H300 : String.length (substring 0 300 p0) = 300)
      by (apply length_substring; lia).
    split; [reflexivity | split; [exact H300|]].
    rewrite length_append, H300. reflexivity.
  - intros p0 Hlen. unfold summaryOf.
    apply Nat.ltb_ge in Hlen as Hge. rewrite Hge.
    rewrite append_empty_r. now apply substring_all.
Qed.

Lemma digest_subsection_and_truncation_witness :
  (exists text,
      generateLlmsTxt exampleURL (pageLong :: pageExact :: pageBare :: nil)
        "https://example.com/" = Ok text)
  /\ contentSubsection pageBare = nil
  /\ contentSubsection pageLong
     = "### Home" :: "URL: https://example.com/" :: "" :: "- Home" :: ""
       :: (repeatChar "x" 300 ++ "...") :: "" :: nil
  /\ contentSubsection pageExact
     = "### Exact" :: "URL: https://example.com/exact" :: "" :: ""
       :: repeatChar "y" 300 :: "" :: nil
  /\ summaryOf (repeatChar "x" 310) = substring 0 300 (repeatChar "x" 310) ++ "..."
  /\ summaryOf (repeatChar "y" 300) = repeatChar "y" 300.
Proof.
  destruct (@digest_subsection_and_truncation exampleURL nat
              (pageLong :: pageExact :: pageBare :: nil)
              "https://example.com/"
              (mkURL "https:" "example.com" "/" "https://example.com")
              eq_refl) as (Htext & Hempty & Hsub & Hlong & Hshort).
  split; [eexists; exact Htext|].
  split; [apply Hempty; split; reflexivity|].
  split; [apply (Hsub pageLong (repeatChar "x" 310) nil eq_refl); discriminate|].
  split; [apply (Hsub pageExact (repeatChar "y" 300) nil eq_refl); discriminate|].
  split.
  - apply Hlong. apply Nat.ltb_lt. reflexivity.
  - apply Hshort. apply Nat.leb_le. reflexivity.
Defined.

(** C10.  The block-quoted summary comes from the first page, in input
    order, whose path is [/] or empty, and from no other: when that page
    has a description the summary quotes it, and when it has none (absent
    or empty) the digest goes from its title straight to the page list,
    whatever the descriptions of the pages after it. *)
Theorem digest_summary_first_homepage :
  forall (URL_new : string -> option URL) (json : Type)
         (pages before after : list (PageContent json))
         (homepage : PageContent json) (baseUrl : string) (base : URL),
    URL_new baseUrl = Some base ->
    pages = before +++ homepage :: after ->
    (forall p, In p before -> (path p =? "/") || (path p =? "") = false) ->
    (path homepage =? "/") || (path homepage =? "") = true ->
    (forall d,
        description homepage = Some d -> d <> "" ->
        generateLlmsTxt URL_new pages baseUrl
        = Ok (JS.join JS.LF
                (("# " ++ hostname base) :: "" :: ("> " ++ d) :: "" :: nil
                 +++ digestBody pages)))
    /\ (description homepage = None \/ description homepage = Some "" ->
        generateLlmsTxt URL_new pages baseUrl
        = Ok (JS.join JS.LF
                (("# " ++ hostname base) :: "" :: nil +++ digestBody pages))).
Proof.
  intros URL_new json pages before after homepage baseUrl base
         Hbase Hpages Hbefore Hhome.
  assert (Hfind : find (@isHomepage json) pages = Some homepage)
    by (apply find_first with (before := before) (after := after);
        assumption).
  unfold generateLlmsTxt. rewrite Hbase, llmsTxtLines_layout, Hfind.
  cbn [homepageDescription]. split.
  - intros d Hd Hne. rewrite Hd. apply String.eqb_neq in Hne.
    unfold JS.truthy. now rewrite Hne.
  - intros [Hd|Hd]; now rewrite Hd.
Qed.

Lemma digest_summary_first_homepage_witness :
  generateLlmsTxt exampleURL
    (pageBare :: homeWithoutDescription :: laterRootWithDescription :: nil)
    "https://example.com/"
  = Ok (JS.join JS.LF
          ("# example.com" :: "" :: "## Seiten / Pages" :: ""
           :: "- [About](https://example.com/about)"
           :: "- [Home](https://example.com/)"
           :: "- [Start](https://example.com)"
           :: "  A later summary."
           :: "" :: "## Inhalt / Content" :: "" :: nil)).
Proof.
  destruct (@digest_summary_first_homepage exampleURL nat
              (pageBare :: homeWithoutDescription
               :: laterRootWithDescription :: nil)
              (pageBare :: nil) (laterRootWithDescription :: nil)
              homeWithoutDescription "https://example.com/"
              (mkURL "https:" "example.com" "/" "https://example.com")
              eq_refl eq_refl) as [_ Hnone].
  - intros p [<-|[]]. reflexivity.
  - reflexivity.
  - apply Hnone. left. reflexivity.
Defined.

(* ================================================================= *)
(** ** Further facts about strings *)

Section MoreStringFacts.

Lemma includes_here (s p : string) :
  JS.startsWith s p = true -> JS.includes s p = true.
Proof. intros H. destruct s; simpl; now rewrite H. Qed.

Lemma includes_later (c : ascii) (s p : string) :
  JS.includes s p = true -> JS.includes (String c s) p = true.
Proof. intros H. simpl. rewrite H. apply orb_true_r. Qed.

Lemma includes_app (before p after : string) :
  JS.includes (before ++ p ++ after) p = true.
Proof.
  induction before as [|c before IH]; simpl append.
  - apply includes_here, startsWith_app.
  - now apply includes_later.
Qed.

Lemma append_eq_empty (a b : string) : a ++ b = "" -> a = "" /\ b = "".
Proof. destruct a; simpl; intros H; [now split | discriminate]. Qed.

Lemma append_cancel_r (a b c : string) : a ++ c = b ++ c -> a = b.
Proof.
  revert b; induction a as [|x a IH]; intros b H.
  - destruct b as [|y b]; [reflexivity|]. exfalso.
    apply (f_equal String.length) in H. simpl in H.
    rewrite length_append in H. lia.
  - destruct b as [|y b].
    + exfalso. apply (f_equal String.length) in H. simpl in H.
      rewrite length_append in H. lia.
    + simpl in H. injection H as -> H. f_equal. now apply IH.
Qed.

Lemma append_last (a b : string) (c d : ascii) :
  a ++ String c "" = b ++ String d "" -> c = d.
Proof.
  revert b; induction a as [|x a IH]; intros b H.
  - destruct b as [|y b]; simpl in H; [congruence|].
    destruct b; simpl in H; discriminate.
  - destruct b as [|y b]; simpl in H.
    + destruct a; simpl in H; discriminate.
    + injection H as _ H. now apply IH in H.
Qed.

Lemma endsWith_slash_html (s : string) :
  JS.endsWith (s ++ "/") ".html" = false.
Proof.
  destruct (JS.endsWith (s ++ "/") ".html") eqn:H; [|reflexivity].
  apply endsWith_iff in H as [pre H].
  change (pre ++ ".html") with (pre ++ ".htm" ++ "l") in H.
  rewrite <- append_assoc in H. apply append_last in H. discriminate.
Qed.

Lemma endsWith_app (pre suffix : string) :
  JS.endsWith (pre ++ suffix) suffix = true.
Proof. apply endsWith_iff. now exists pre. Qed.

Lemma replaceSuffix_app (pre suffix by_ : string) :
  JS.replaceSuffix (pre ++ suffix) suffix by_ = pre ++ by_.
Proof.
  unfold JS.replaceSuffix. rewrite endsWith_app, length_append.
  replace (String.length pre + String.length suffix - String.length suffix)
    with (String.length pre) by lia.
  f_equal. apply (append_cancel_r _ _ (JS.slice (pre ++ suffix)
                                          (String.length pre))).
  rewrite substring_slice. now rewrite slice_app.
Qed.

Lemma cleanPath_directory_index (dirs : string) :
  cleanPath (dirs ++ "/index.html") = dirs ++ "/".
Proof.
  unfold cleanPath. rewrite replaceSuffix_app.
  unfold JS.replaceSuffix. now rewrite endsWith_slash_html.
Qed.

Lemma cleanPath_page (stem : string) :
  JS.endsWith stem "/index" = false -> cleanPath (stem ++ ".html") = stem.
Proof.
  intros Hstem. unfold cleanPath.
  assert (Hidx : JS.endsWith (stem ++ ".html") "/index.html" = false).
  { destruct (JS.endsWith (stem ++ ".html") "/index.html") eqn:H;
      [|reflexivity].
    apply endsWith_iff in H as [pre H].
    change (pre ++ "/index.html") with (pre ++ "/index" ++ ".html") in H.
    rewrite <- append_assoc in H. apply append_cancel_r in H.
    assert (Hc : JS.endsWith stem "/index" = true)
      by (apply endsWith_iff; now exists pre).
    congruence. }
  unfold JS.replaceSuffix at 2. rewrite Hidx.
  rewrite replaceSuffix_app. apply append_empty_r.
Qed.

End MoreStringFacts.

(* ================================================================= *)
(** ** Further facts about admission *)

(** X1.  A candidate that resolves to a URL whose path contains
    [/wp-admin] or [/wp-login] anywhere, as a whole segment or as the
    beginning of a longer one, is rejected whatever its host and protocol;
    so is one whose protocol is neither [http:] nor [https:]. *)
Theorem urlFilter_rejects_admin_paths :
  forall (URL_new_base : string -> string -> option URL)
         (seed normalizedBaseHost candidate : string) (resUrl : URL),
    URL_new_base candidate seed = Some resUrl ->
    (forall before after,
        pathname resUrl = before ++ "/wp-admin" ++ after ->
        urlFilter URL_new_base seed normalizedBaseHost candidate = false)
    /\ (forall before after,
          pathname resUrl = before ++ "/wp-login" ++ after ->
          urlFilter URL_new_base seed normalizedBaseHost candidate = false)
    /\ (protocol resUrl <> "http:" -> protocol resUrl <> "https:" ->
        urlFilter URL_new_base seed normalizedBaseHost candidate = false).
Proof.
  intros URL_new_base seed nb c resUrl Hres. unfold urlFilter. rewrite Hres.
  split; [|split].
  - intros before after Hpath. rewrite Hpath, includes_app.
    cbn [negb andb]. now rewrite andb_false_r.
  - intros before after Hpath. rewrite Hpath, includes_app.
    cbn [negb]. now rewrite !andb_false_r.
  - intros Hhttp Hhttps.
    apply String.eqb_neq in Hhttp, Hhttps. rewrite Hhttp, Hhttps.
    cbn [orb]. now rewrite andb_false_r.
Qed.

Lemma urlFilter_rejects_admin_paths_witness :
  urlFilter moreURLBase "https://example.com/" "example.com"
    "https://example.com/wp-admin/options.php" = false
  /\ urlFilter moreURLBase "https://example.com/" "example.com"
       "https://example.com/" = true.
Proof.
  split; [|reflexivity].
  destruct (@urlFilter_rejects_admin_paths moreURLBase
              "https://example.com/" "example.com"
              "https://example.com/wp-admin/options.php"
              (mkURL "https:" "example.com" "/wp-admin/options.php"
                     "https://example.com") eq_refl) as [Hadmin _].
  apply (Hadmin "" "/options.php"). reflexivity.
Defined.

(** X2.  A seed on [h] and a seed on [www.h] admit the same candidates:
    when [h] does not itself begin with [www.] and the candidate resolves
    alike against both seeds, the two crawls answer the same. *)
Theorem admission_seed_www :
  forall (URL_new : string -> option URL)
         (URL_new_base : string -> string -> option URL)
         (seedH seedWwwH candidate : string) (b1 b2 : URL),
    URL_new seedH = Some b1 ->
    URL_new seedWwwH = Some b2 ->
    hostname b2 = "www." ++ hostname b1 ->
    JS.startsWith (hostname b1) "www." = false ->
    URL_new_base candidate seedH = URL_new_base candidate seedWwwH ->
    admission URL_new URL_new_base candidate seedH
    = admission URL_new URL_new_base candidate seedWwwH.
Proof.
  intros URL_new URL_new_base s1 s2 c b1 b2 H1 H2 Hhost Hnw Hres.
  unfold admission. rewrite H1, H2. f_equal. unfold urlFilter.
  rewrite Hres, Hhost, normalizeHostname_www.
  now rewrite (normalizeHostname_plain _ Hnw).
Qed.

Lemma admission_seed_www_witness :
  admission exampleURL exampleURLBase
    "https://example.com/about" "https://example.com/"
  = admission exampleURL exampleURLBase
      "https://example.com/about" "https://www.example.com/"
  /\ admission exampleURL exampleURLBase
       "https://example.com/about" "https://www.example.com/" = Some true.
Proof.
  split; [|reflexivity].
  apply (@admission_seed_www exampleURL exampleURLBase
           "https://example.com/" "https://www.example.com/"
           "https://example.com/about"
           (mkURL "https:" "example.com" "/" "https://example.com")
           (mkURL "https:" "www.example.com" "/" "https://www.example.com"));
    reflexivity.
Defined.

(* ================================================================= *)
(** ** Further facts about path reconstruction *)

(** X3.  Whatever the relative path, the URL reconstructed for a seed that
    parses begins with the seed's origin and a slash. *)
Theorem reconstructUrl_begins_with_origin :
  forall (URL_new : string -> option URL) (seed relativePath : string)
         (base : URL),
    URL_new seed = Some base ->
    exists pageUrl,
      reconstructUrl URL_new seed relativePath = Ok pageUrl
      /\ JS.startsWith pageUrl (origin base ++ "/") = true.
Proof.
  intros URL_new seed rel base Hseed. unfold reconstructUrl. rewrite Hseed.
  eexists. split; [reflexivity|]. unfold originPlus.
  destruct ((_ =? "index.html") || (_ =? "")).
  - rewrite <- (append_empty_r (origin base ++ "/")) at 1.
    apply startsWith_app.
  - change (origin base ++ "/" ++ ?x) with (origin base ++ ("/" ++ x)).
    rewrite <- append_assoc. apply startsWith_app.
Qed.

Lemma reconstructUrl_begins_with_origin_witness :
  exists pageUrl,
    reconstructUrl exampleURL "https://example.com/" "other.org/x.html"
    = Ok pageUrl
    /\ JS.startsWith pageUrl "https://example.com/" = true.
Proof.
  apply (@reconstructUrl_begins_with_origin exampleURL "https://example.com/"
           "other.org/x.html"
           (mkURL "https:" "example.com" "/" "https://example.com") eq_refl).
Defined.

(** X4.  Below the folder named after the seed's hostname, a directory's
    [index.html] maps to the directory URL with its trailing slash, a page
    [stem.html] maps to [stem] without the extension (unless the stem is an
    index), any path that does not end in [.html] is kept as it is, and the
    folder itself maps to the origin with a slash. *)
Theorem reconstructUrl_host_folder :
  forall (URL_new : string -> option URL) (seed : string) (base : URL),
    URL_new seed = Some base ->
    let H := hostname base in
    (forall dirs,
        reconstructUrl URL_new seed (H ++ "/" ++ dirs ++ "/index.html")
        = Ok (origin base ++ "/" ++ dirs ++ "/"))
    /\ (forall stem,
          JS.endsWith stem "/index" = false -> stem <> "index" ->
          reconstructUrl URL_new seed (H ++ "/" ++ stem ++ ".html")
          = Ok (origin base ++ "/" ++ stem))
    /\ (forall rest,
          JS.endsWith rest ".html" = false ->
          reconstructUrl URL_new seed (H ++ "/" ++ rest)
          = Ok (origin base ++ "/" ++ rest))
    /\ reconstructUrl URL_new seed (H ++ "/index.html")
       = Ok (origin base ++ "/")
    /\ reconstructUrl URL_new seed H = Ok (origin base ++ "/").
Proof.
  intros URL_new seed base Hseed H.
  assert (Hstrip : forall rest,
             reconstructUrl URL_new seed (H ++ "/" ++ rest)
             = Ok (originPlus base rest)).
  { intros rest. unfold reconstructUrl. rewrite Hseed.
    unfold hostVariants. fold H. now rewrite stripHost_head_slash. }
  split; [|split; [|split; [|split]]].
  - intros dirs. rewrite Hstrip. unfold originPlus.
    rewrite cleanPath_directory_index.
    destruct (dirs ++ "/index.html" =? "index.html") eqn:H1.
    + apply String.eqb_eq in H1. apply (f_equal String.length) in H1.
      rewrite length_append in H1. simpl in H1. lia.
    + destruct (dirs ++ "/index.html" =? "") eqn:H2; [|reflexivity].
      apply String.eqb_eq in H2. apply append_eq_empty in H2 as [_ H2].
      discriminate.
  - intros stem Hnoidx Hne. rewrite Hstrip. unfold originPlus.
    rewrite (cleanPath_page _ Hnoidx).
    destruct (stem ++ ".html" =? "index.html") eqn:H1.
    + apply String.eqb_eq in H1.
      change "index.html" with ("index" ++ ".html") in H1.
      apply append_cancel_r in H1. contradiction.
    + destruct (stem ++ ".html" =? "") eqn:H2; [|reflexivity].
      apply String.eqb_eq in H2. apply append_eq_empty in H2 as [_ H2].
      discriminate.
  - intros rest Hext. rewrite Hstrip. unfold originPlus.
    rewrite (cleanPath_other _ Hext).
    destruct (rest =? "index.html") eqn:H1.
    + apply String.eqb_eq in H1. rewrite H1 in Hext. discriminate.
    + destruct (rest =? "") eqn:H2; [|reflexivity].
      apply String.eqb_eq in H2. now rewrite H2.
  - apply Hstrip.
  - unfold reconstructUrl. rewrite Hseed. unfold hostVariants. fold H.
    cbn [stripHost].
    destruct (JS.startsWith H (H ++ "/")) eqn:Hs.
    + apply startsWith_split in Hs.
      apply (f_equal String.length) in Hs.
      rewrite !length_append in Hs. simpl in Hs. lia.
    + rewrite <- (append_empty_r H) at 1. rewrite startsWith_app.
      rewrite <- (append_empty_r H) at 1. now rewrite slice_app.
Qed.

Lemma reconstructUrl_host_folder_witness :
  reconstructUrl exampleURL "https://example.com/"
    "example.com/docs/api/index.html" = Ok "https://example.com/docs/api/"
  /\ reconstructUrl exampleURL "https://example.com/"
       "example.com/docs/intro.html" = Ok "https://example.com/docs/intro"
  /\ reconstructUrl exampleURL "https://example.com/"
       "example.com/css/site.css" = Ok "https://example.com/css/site.css".
Proof.
  destruct (@reconstructUrl_host_folder exampleURL "https://example.com/"
              (mkURL "https:" "example.com" "/" "https://example.com")
              eq_refl) as (Hdir & Hpage & Hasset & _).
  split; [exact (Hdir "docs/api")|]. split.
  - apply (Hpage "docs/intro"); [reflexivity | discriminate].
  - apply (Hasset "css/site.css"). reflexivity.
Defined.

(** X5.  The folder may carry the other [www.] form of the seed's
    hostname: for a seed on [h] a path below [www.h/], and for a seed on
    [www.n] a path below [n/], give the URL of the same path below the
    exact host folder, as long as the hostname itself is not a prefix of
    the path (the bare-prefix branch would take it first). *)
Theorem reconstructUrl_www_folder :
  forall (URL_new : string -> option URL) (seed : string) (base : URL),
    URL_new seed = Some base ->
    let H := hostname base in
    (forall rest,
        JS.startsWith H "www." = false ->
        JS.startsWith ("www." ++ H ++ "/" ++ rest) H = false ->
        reconstructUrl URL_new seed ("www." ++ H ++ "/" ++ rest)
        = reconstructUrl URL_new seed (H ++ "/" ++ rest))
    /\ (forall n rest,
          H = "www." ++ n ->
          JS.startsWith (n ++ "/" ++ rest) H = false ->
          reconstructUrl URL_new seed (n ++ "/" ++ rest)
          = reconstructUrl URL_new seed (H ++ "/" ++ rest)).
Proof.
  intros URL_new seed base Hseed H.
  assert (Hexact : forall rest,
             reconstructUrl URL_new seed (H ++ "/" ++ rest)
             = Ok (originPlus base rest)).
  { intros rest. unfold reconstructUrl. rewrite Hseed.
    unfold hostVariants. fold H. now rewrite stripHost_head_slash. }
  split.
  - intros rest Hnw Hnot. rewrite Hexact.
    unfold reconstructUrl. rewrite Hseed. do 2 f_equal.
    unfold hostVariants. fold H. rewrite (normalizeHostname_plain _ Hnw).
    cbn [stripHost].
    rewrite (startsWith_longer _ _ "/" Hnot), Hnot.
    change ("www." ++ H ++ "/" ++ rest) with ("www." ++ (H ++ "/" ++ rest)).
    rewrite <- (append_assoc "www." H ("/" ++ rest)).
    exact (stripHost_head_slash ("www." ++ H) rest nil).
  - intros n rest Hn Hnot. rewrite Hexact.
    unfold reconstructUrl. rewrite Hseed. do 2 f_equal.
    unfold hostVariants. fold H. rewrite Hn at 2 3.
    rewrite normalizeHostname_www.
    cbn [stripHost].
    rewrite (startsWith_longer _ _ "/" Hnot), Hnot.
    exact (stripHost_head_slash n rest (("www." ++ n) :: nil)).
Qed.

Lemma reconstructUrl_www_folder_witness :
  reconstructUrl exampleURL "https://example.com/"
    "www.example.com/about.html" = Ok "https://example.com/about"
  /\ reconstructUrl exampleURL "https://www.example.com/"
       "example.com/about.html" = Ok "https://www.example.com/about".
Proof.
  destruct (@reconstructUrl_www_folder exampleURL "https://example.com/"
              (mkURL "https:" "example.com" "/" "https://example.com")
              eq_refl) as [Hwith _].
  destruct (@reconstructUrl_www_folder exampleURL "https://www.example.com/"
              (mkURL "https:" "www.example.com" "/"
                     "https://www.example.com")
              eq_refl) as [_ Hwithout].
  split.
  - exact (Hwith "about.html" eq_refl eq_refl).
  - exact (Hwithout "example.com" "about.html" eq_refl eq_refl).
Defined.

(** X6.  The two revisions of [reconstructUrl] agree on every path that
    does not begin with a slash and of which no host variant of the seed is
    a non-empty prefix: there the host-folder loop changes nothing. *)
Theorem reconstructUrl_revisions_agree :
  forall (URL_new : string -> option URL) (seed relativePath : string)
         (base : URL),
    URL_new seed = Some base ->
    JS.startsWith relativePath "/" = false ->
    hostPrefixFree base relativePath = true ->
    reconstructUrl URL_new seed relativePath
    = SrcCrawler.reconstructUrl URL_new seed relativePath.
Proof.
  intros URL_new seed rel base Hseed Hslash Hfree.
  unfold reconstructUrl, SrcCrawler.reconstructUrl. rewrite Hseed.
  rewrite (stripHost_untouched rel (hostVariants base) Hslash Hfree).
  unfold originPlus.
  destruct (rel =? "index.html"); [reflexivity|]. cbn [orb].
  destruct (rel =? "") eqn:He; [|reflexivity].
  apply String.eqb_eq in He. now rewrite He.
Qed.

Lemma reconstructUrl_revisions_agree_witness :
  reconstructUrl exampleURL "https://example.com/" "blog/post.html"
  = SrcCrawler.reconstructUrl exampleURL "https://example.com/"
      "blog/post.html"
  /\ reconstructUrl exampleURL "https://example.com/" "blog/post.html"
     = Ok "https://example.com/blog/post".
Proof.
  split; [|reflexivity].
  apply (@reconstructUrl_revisions_agree exampleURL "https://example.com/"
           "blog/post.html"
           (mkURL "https:" "example.com" "/" "https://example.com"));
    reflexivity.
Defined.

(* ================================================================= *)
(** ** Further facts about page extraction *)

Section MoreExtractorFacts.

Lemma or_truthy (a b : string) : b <> "" -> JS.or a b <> "".
Proof.
  intros Hb. unfold JS.or, JS.truthy.
  destruct (a =? "") eqn:Ha; cbn [negb]; [exact Hb|].
  now apply String.eqb_neq.
Qed.

Lemma truthy_iff (s : string) : JS.truthy s = true <-> s <> "".
Proof.
  unfold JS.truthy. rewrite negb_true_iff. apply String.eqb_neq.
Qed.

Lemma orU_not_empty (a b : option string) :
  b <> Some "" -> JS.orU a b <> Some "".
Proof.
  intros Hb. unfold JS.orU. destruct a as [s|]; [|exact Hb].
  destruct (JS.truthy s) eqn:Hs; [|exact Hb].
  apply truthy_iff in Hs. congruence.
Qed.

Lemma extractHeadings_map (doc : Cheerio) :
  extractHeadings doc
  = map (fun el => mkHeading (parseIntChar (String.get 1 (hel_tagName el)))
                             (JS.trim (hel_text el)))
        (filter (fun el => JS.truthy (JS.trim (hel_text el)))
                (q_headings doc)).
Proof.
  unfold extractHeadings.
  now rewrite (each_filter_map
                 (fun el => JS.truthy (JS.trim (hel_text el)))
                 (fun el => mkHeading
                              (parseIntChar (String.get 1 (hel_tagName el)))
                              (JS.trim (hel_text el)))).
Qed.

(** The items [extractLists] collects for one list element. *)
Lemma listItems_map (lis : list string) :
  each lis
    (fun items li =>
       if JS.truthy (JS.trim li) then push items (JS.trim li) else items)
    nil
  = map JS.trim (filter (fun li => JS.truthy (JS.trim li)) lis).
Proof.
  now rewrite (each_filter_map (fun li => JS.truthy (JS.trim li)) JS.trim).
Qed.

Lemma extractLists_map (doc : Cheerio) :
  extractLists doc
  = map (fun el =>
           mkListItem (if lel_tagName el =? "ul" then ul else ol)
             (map JS.trim
                  (filter (fun li => JS.truthy (JS.trim li)) (lel_li el))))
        (filter
           (fun el =>
              (0 <? List.length
                      (map JS.trim
                           (filter (fun li => JS.truthy (JS.trim li))
                                   (lel_li el))))%nat)
           (q_lists doc)).
Proof.
  unfold extractLists, each.
  enough (Hgen : forall acc,
             fold_left
               (fun lists el =>
                  let type := if lel_tagName el =? "ul" then ul else ol in
                  let items :=
                    fold_left
                      (fun items li =>
                         let text := JS.trim li in
                         if JS.truthy text then push items text else items)
                      (lel_li el) nil in
                  if (0 <? List.length items)%nat
                  then push lists (mkListItem type items)
                  else lists)
               (q_lists doc) acc
             = acc +++ map
                 (fun el =>
                    mkListItem (if lel_tagName el =? "ul" then ul else ol)
                      (map JS.trim
                           (filter (fun li => JS.truthy (JS.trim li))
                                   (lel_li el))))
                 (filter
                    (fun el =>
                       (0 <? List.length
                               (map JS.trim
                                    (filter
                                       (fun li => JS.truthy (JS.trim li))
                                       (lel_li el))))%nat)
                    (q_lists doc)))
    by apply (Hgen nil).
  induction (q_lists doc) as [|el els IH]; intros acc.
  - cbn. now rewrite app_nil_r.
  - cbn [fold_left filter]. rewrite IH.
    pose proof (listItems_map (lel_li el)) as Hitems.
    unfold each in Hitems. cbv zeta. rewrite Hitems.
    destruct (0 <? List.length _)%nat; [|reflexivity].
    cbn [map]. unfold push. now rewrite <- app_assoc.
Qed.

Lemma extractImages_map (doc : Cheerio) :
  extractImages doc
  = map (fun el => mkImageInfo (JS.orEmpty (iel_src el))
                               (JS.orEmpty (iel_alt el)))
        (filter (fun el => JS.truthy (JS.orEmpty (iel_src el)))
                (q_img_src doc)).
Proof.
  unfold extractImages.
  now rewrite (each_filter_map
                 (fun el => JS.truthy (JS.orEmpty (iel_src el)))
                 (fun el => mkImageInfo (JS.orEmpty (iel_src el))
                                        (JS.orEmpty (iel_alt el)))).
Qed.

Lemma extractFullText_parts (els : list string) :
  each els
    (fun textParts el =>
       if JS.truthy (JS.trim el) && (5 <? String.length (JS.trim el))%nat
       then push textParts (JS.trim el)
       else textParts)
    nil
  = filter (fun text => (5 <? String.length text)%nat) (map JS.trim els).
Proof.
  rewrite (each_filter_map
             (fun el => JS.truthy (JS.trim el)
                        && (5 <? String.length (JS.trim el))%nat)
             JS.trim).
  simpl. induction els as [|el els IH]; simpl; [reflexivity|].
  rewrite longer_is_truthy.
  destruct (5 <? String.length (JS.trim el))%nat; simpl; now rewrite IH.
Qed.

Lemma includes_self (s : string) : JS.includes s s = true.
Proof.
  apply includes_here. rewrite <- (append_empty_r s) at 1.
  apply startsWith_app.
Qed.

Lemma includes_after (a s p : string) :
  JS.includes s p = true -> JS.includes (a ++ s) p = true.
Proof.
  intros H. induction a as [|c a IH]; [exact H|].
  simpl append. now apply includes_later.
Qed.

Lemma includes_join (sep p : string) (parts : list string) :
  In p parts -> JS.includes (JS.join sep parts) p = true.
Proof.
  unfold JS.join. induction parts as [|x xs IH]; intros Hin; [contradiction|].
  destruct xs as [|y ys].
  - destruct Hin as [->|[]]. apply includes_self.
  - cbn [String.concat]. destruct Hin as [->|Hin].
    + exact (includes_app "" p (sep ++ String.concat sep (y :: ys))).
    + apply includes_after, includes_after. now apply IH.
Qed.

Lemma join_empty_iff (sep : string) (parts : list string) :
  Forall (fun p => p <> "") parts ->
  (JS.join sep parts = "" <-> parts = nil).
Proof.
  intros Hall. split; [|now intros ->].
  destruct parts as [|x xs]; [reflexivity|]. intros H. exfalso.
  inversion Hall as [|? ? Hx _]; subst. apply Hx.
  unfold JS.join in H. destruct xs; cbn [String.concat] in H; [exact H|].
  now apply append_eq_empty in H as [H _].
Qed.

End MoreExtractorFacts.

(** X7.  The title of an extracted page is never empty: it is the trimmed
    document title when that is not empty, otherwise the trimmed text of
    the first [h1] when that is not empty, otherwise [Untitled].  The
    description is never the empty string: an empty attribute counts as
    absent. *)
Theorem extracted_title_and_description :
  forall (URL_new : string -> option URL) (json : Type)
         (JSON_parse : string -> option json)
         (cheerio_load : string -> Cheerio)
         (html pageUrl : string) (page : PageContent json),
    extractPageContent URL_new JSON_parse cheerio_load html pageUrl = Ok page ->
    let doc := cheerio_load html in
    title page <> ""
    /\ (JS.trim (q_title doc) <> "" -> title page = JS.trim (q_title doc))
    /\ (JS.trim (q_title doc) = "" -> JS.trim (q_h1_first doc) <> "" ->
        title page = JS.trim (q_h1_first doc))
    /\ (JS.trim (q_title doc) = "" -> JS.trim (q_h1_first doc) = "" ->
        title page = "Untitled")
    /\ description page <> Some ""
    /\ (forall d, q_meta_description doc = Some d -> d <> "" ->
        description page = Some d).
Proof.
  intros URL_new json JSON_parse load html pageUrl page Hpage doc.
  unfold extractPageContent in Hpage. fold doc in Hpage.
  destruct (URL_new pageUrl) as [base|]; [|discriminate].
  injection Hpage as <-. cbn [title description].
  split; [|split; [|split; [|split; [|split]]]].
  - apply or_truthy, or_truthy. discriminate.
  - intros H. apply String.eqb_neq in H.
    unfold JS.or at 1. unfold JS.truthy. now rewrite H.
  - intros Ht Hh. apply String.eqb_neq in Hh.
    unfold JS.or, JS.truthy. now rewrite Ht, Hh.
  - intros Ht Hh. unfold JS.or, JS.truthy. now rewrite Ht, Hh.
  - apply orU_not_empty, orU_not_empty. discriminate.
  - intros d Hd Hne. rewrite Hd. apply String.eqb_neq in Hne.
    unfold JS.orU, JS.truthy. now rewrite Hne.
Qed.

Lemma extracted_title_and_description_witness :
  exists page,
    extractPageContent exampleURL exampleJSON moreLoad html_article
      "https://example.com/" = Ok page
    /\ title page = "Welcome"
    /\ description page = None.
Proof.
  eexists. split; [reflexivity|].
  destruct (@extracted_title_and_description exampleURL nat exampleJSON
              moreLoad html_article "https://example.com/" _ eq_refl)
    as (_ & _ & Hh1 & _).
  split; [|reflexivity].
  apply Hh1; [reflexivity | discriminate].
Defined.

(** X8.  In an extracted page every heading has a non-empty text, every
    list has at least one item and no empty item, every link has a
    non-empty href that begins neither with [#] nor with [javascript:],
    every image has a non-empty [src], and every paragraph is longer than
    20 characters. *)
Theorem extracted_sequences_are_clean :
  forall (URL_new : string -> option URL) (json : Type)
         (JSON_parse : string -> option json)
         (cheerio_load : string -> Cheerio)
         (html pageUrl : string) (page : PageContent json),
    extractPageContent URL_new JSON_parse cheerio_load html pageUrl = Ok page ->
    Forall (fun h => heading_text h <> "") (headings page)
    /\ Forall (fun l => list_items l <> nil
                        /\ Forall (fun item => item <> "") (list_items l))
              (lists page)
    /\ Forall (fun l => link_href l <> ""
                        /\ JS.startsWith (link_href l) "#" = false
                        /\ JS.startsWith (link_href l) "javascript:" = false)
              (links page)
    /\ Forall (fun i => image_src i <> "") (images page)
    /\ Forall (fun p => 20 < String.length p) (paragraphs page).
Proof.
  intros URL_new json JSON_parse load html pageUrl page Hpage.
  unfold extractPageContent in Hpage.
  destruct (URL_new pageUrl) as [base|]; [|discriminate].
  injection Hpage as <-. cbn [headings lists links images paragraphs].
  split; [|split; [|split; [|split]]].
  - rewrite extractHeadings_map. apply Forall_forall. intros h Hin.
    apply in_map_iff in Hin as (el & <- & Hel).
    apply filter_In in Hel as [_ Hel]. cbn [heading_text].
    now apply truthy_iff.
  - rewrite extractLists_map. apply Forall_forall. intros l Hin.
    apply in_map_iff in Hin as (el & <- & Hel).
    apply filter_In in Hel as [_ Hel]. cbn [list_items]. split.
    + intros Hnil. rewrite Hnil in Hel. discriminate.
    + apply Forall_forall. intros item Hitem.
      apply in_map_iff in Hitem as (li & <- & Hli).
      apply filter_In in Hli as [_ Hli]. now apply truthy_iff.
  - rewrite extractLinks_map. apply Forall_forall. intros l Hin.
    apply in_map_iff in Hin as (el & <- & Hel).
    apply filter_In in Hel as [_ Hel]. unfold keptAnchor in Hel.
    apply andb_true_iff in Hel as [Hel Hjs].
    apply andb_true_iff in Hel as [Hne Hhash].
    unfold linkOf; cbn [link_href].
    apply truthy_iff in Hne. apply negb_true_iff in Hhash, Hjs.
    now repeat split.
  - rewrite extractImages_map. apply Forall_forall. intros i Hin.
    apply in_map_iff in Hin as (el & <- & Hel).
    apply filter_In in Hel as [_ Hel]. cbn [image_src].
    now apply truthy_iff.
  - rewrite extractParagraphs_filter. apply Forall_forall. intros p Hin.
    apply filter_In in Hin as [_ Hp]. now apply Nat.ltb_lt.
Qed.

Lemma extracted_sequences_are_clean_witness :
  exists page,
    extractPageContent exampleURL exampleJSON moreLoad html_article
      "https://example.com/" = Ok page
    /\ headings page = mkHeading (Some 1) "Welcome" :: nil
    /\ lists page = mkListItem ul ("one" :: nil) :: nil
    /\ links page = mkLinkInfo "/about" "About" false :: nil
    /\ images page = mkImageInfo "/logo.png" "" :: nil
    /\ paragraphs page = nil
    /\ Forall (fun h => heading_text h <> "") (headings page).
Proof.
  eexists. split; [reflexivity|].
  do 5 (split; [reflexivity|]).
  apply (@extracted_sequences_are_clean exampleURL nat exampleJSON moreLoad
           html_article "https://example.com/" _ eq_refl).
Defined.

(** X9.  The full text of a page is the trimmed body texts longer than 5
    characters joined by blank lines: it contains every such text, and it is
    empty exactly when the document has no body or none of its body texts
    is longer than 5 characters once trimmed. *)
Theorem extractFullText_contents :
  forall (doc : Cheerio),
    (forall els el,
        q_body doc = Some els -> In el els ->
        5 < String.length (JS.trim el) ->
        JS.includes (extractFullText doc) (JS.trim el) = true)
    /\ (extractFullText doc = ""
        <-> q_body doc = None
            \/ exists els,
                 q_body doc = Some els
                 /\ Forall (fun el => String.length (JS.trim el) <= 5) els).
Proof.
  intros doc. unfold extractFullText.
  destruct (q_body doc) as [els|].
  - rewrite extractFullText_parts. split.
    + intros els' el Hels Hin Hlen. injection Hels as <-.
      apply includes_join. apply filter_In. split.
      * now apply in_map.
      * now apply Nat.ltb_lt.
    + rewrite join_empty_iff.
      * split.
        -- intros Hnil. right. exists els. split; [reflexivity|].
           apply Forall_forall. intros el Hin.
           destruct (le_lt_dec (String.length (JS.trim el)) 5) as [Hle|Hgt];
             [exact Hle|].
           exfalso.
           assert (Hk : In (JS.trim el)
                           (filter (fun text =>
                                      (5 <? String.length text)%nat)
                                   (map JS.trim els))).
           { apply filter_In. split; [now apply in_map|].
             now apply Nat.ltb_lt. }
           rewrite Hnil in Hk. contradiction.
        -- intros [Hnone|(els' & Hels & Hall)]; [discriminate|].
           injection Hels as <-.
           destruct (filter _ (map JS.trim els)) as [|t ts] eqn:Hf;
             [reflexivity|].
           exfalso.
           assert (Hin : In t (filter (fun text =>
                                         (5 <? String.length text)%nat)
                                      (map JS.trim els)))
             by (rewrite Hf; now left).
           apply filter_In in Hin as [Hin Hlen].
           apply in_map_iff in Hin as (el & <- & Hel).
           rewrite Forall_forall in Hall. specialize (Hall el Hel).
           apply Nat.ltb_lt in Hlen. lia.
      * apply Forall_forall. intros p Hin.
        apply filter_In in Hin as [_ Hlen]. apply Nat.ltb_lt in Hlen.
        intros ->. simpl in Hlen. lia.
  - split; [discriminate|]. split; [now left | reflexivity].
Qed.

Lemma extractFullText_contents_witness :
  JS.includes (extractFullText (moreLoad html_article)) "Hello world" = true
  /\ extractFullText (moreLoad html_article)
     = "Welcome" ++ JS.LF ++ JS.LF ++ "Hello world".
Proof.
  split; [|reflexivity].
  destruct (extractFullText_contents (moreLoad html_article)) as [Hin _].
  apply (Hin (" Welcome " :: " one " :: " " :: "Hello world" :: nil)
             "Hello world" eq_refl).
  - right. right. right. left. reflexivity.
  - apply Nat.ltb_lt. reflexivity.
Defined.

(* ================================================================= *)
(** ** Further facts about the run *)

Section RunFacts.

Variable URL_new : string -> option URL.
Variable json : Type.
Variable JSON_parse : string -> option json.
Variable cheerio_load : string -> Cheerio.

Local Notation "'extractFile'" :=
  (extractHtmlFile URL_new JSON_parse cheerio_load).
Local Notation "'contribution'" :=
  (fileContribution URL_new JSON_parse cheerio_load).
Local Notation "'catalog'" := (@catalogFile URL_new json).

Lemma extractHtmlFile_frame (url : string) (f : HtmlFile) (run : Run json) :
  extractFile url f run
  = (Ok tt,
     mkRun (run_errors run +++ snd (contribution url f))
           (run_pages run +++ fst (contribution url f))
           (run_assets run)).
Proof.
  unfold fileContribution, extractHtmlFile, tryCatch, bind, await,
    pushPage, pushError, push.
  destruct run as [errs pgs asts]. cbn [run_errors run_pages run_assets].
  destruct (hf_readFile f) as [html|e]; cbn;
    [|now rewrite app_nil_r].
  destruct (reconstructUrl URL_new url (hf_relative f)) as [pageUrl|e]; cbn;
    [|now rewrite app_nil_r].
  destruct (extractPageContent URL_new JSON_parse cheerio_load html pageUrl)
    as [page|e]; cbn; [|now rewrite app_nil_r].
  destruct (hf_writeJson f) as [[]|e]; cbn; [now rewrite app_nil_r|].
  reflexivity.
Qed.

Lemma contribution_sizes (url : string) (f : HtmlFile) :
  List.length (fst (contribution url f)) <= 1
  /\ List.length (snd (contribution url f)) <= 1.
Proof.
  unfold fileContribution, extractHtmlFile, tryCatch, bind, await,
    pushPage, pushError, push.
  destruct (hf_readFile f) as [html|e]; cbn; [|lia].
  destruct (reconstructUrl URL_new url (hf_relative f)) as [pageUrl|e]; cbn;
    [|lia].
  destruct (extractPageContent URL_new JSON_parse cheerio_load html pageUrl)
    as [page|e]; cbn; [|lia].
  destruct (hf_writeJson f) as [[]|e]; cbn; lia.
Qed.

Lemma forOf_extract (url : string) (files : list HtmlFile) (run : Run json) :
  forOf files (extractFile url) run
  = (Ok tt,
     mkRun (run_errors run +++ flat_map (fun f => snd (contribution url f)) files)
           (run_pages run +++ flat_map (fun f => fst (contribution url f)) files)
           (run_assets run)).
Proof.
  revert run; induction files as [|f files IH]; intros run.
  - cbn. rewrite !app_nil_r. now destruct run.
  - cbn [forOf]. unfold bind. rewrite extractHtmlFile_frame, IH.
    cbn [run_errors run_pages run_assets flat_map].
    now rewrite <- !app_assoc.
Qed.

Lemma catalogFile_ok (url : string) (base : URL) (f : AssetFile)
    (run : Run json) :
  URL_new url = Some base -> statOk f = true ->
  catalog url f run
  = (Ok tt,
     mkRun (run_errors run) (run_pages run)
           (run_assets run +++ (assetOf base f :: nil))).
Proof.
  intros Hseed Hstat. unfold catalogFile, bind, await, pushAsset, push,
    assetOf, statOk, reconstructUrl in *.
  rewrite Hseed. destruct (af_stat f); [reflexivity | discriminate].
Qed.

Lemma catalogFile_throw (url e : string) (f : AssetFile) (run : Run json) :
  af_stat f = Throw e -> catalog url f run = (Throw e, run).
Proof.
  intros Hstat. unfold catalogFile, bind, await. now rewrite Hstat.
Qed.

Lemma forOf_catalog_ok (url : string) (base : URL) (files : list AssetFile)
    (run : Run json) :
  URL_new url = Some base -> forallb statOk files = true ->
  forOf files (catalog url) run
  = (Ok tt,
     mkRun (run_errors run) (run_pages run)
           (run_assets run +++ map (assetOf base) files)).
Proof.
  intros Hseed. revert run; induction files as [|f files IH]; intros run Hall.
  - cbn. rewrite app_nil_r. now destruct run.
  - cbn [forallb] in Hall. apply andb_true_iff in Hall as [Hf Hall].
    cbn [forOf]. unfold bind. rewrite (catalogFile_ok _ _ Hseed Hf).
    rewrite (IH _ Hall). cbn [run_errors run_pages run_assets map].
    now rewrite <- app_assoc.
Qed.

Lemma forOf_catalog_throw (url e : string) (base : URL)
    (before after : list AssetFile) (bad : AssetFile) (run : Run json) :
  URL_new url = Some base -> forallb statOk before = true ->
  af_stat bad = Throw e ->
  forOf (before +++ bad :: after) (catalog url) run
  = (Throw e,
     mkRun (run_errors run) (run_pages run)
           (run_assets run +++ map (assetOf base) before)).
Proof.
  intros Hseed Hall Hbad. revert run Hall.
  induction before as [|f before IH]; intros run Hall.
  - cbn [app forOf]. unfold bind. rewrite (catalogFile_throw _ _ _ Hbad).
    cbn. rewrite app_nil_r. now destruct run.
  - cbn [forallb] in Hall. apply andb_true_iff in Hall as [Hf Hall].
    cbn [app forOf]. unfold bind. rewrite (catalogFile_ok _ _ Hseed Hf).
    rewrite (IH _ Hall). cbn [run_errors run_pages run_assets map].
    now rewrite <- app_assoc.
Qed.

Lemma forOf_catalog_frame (url : string) (files : list AssetFile)
    (run : Run json) :
  run_errors (snd (forOf files (catalog url) run)) = run_errors run
  /\ run_pages (snd (forOf files (catalog url) run)) = run_pages run.
Proof.
  revert run; induction files as [|f files IH]; intros run; [now split|].
  cbn [forOf]. unfold bind.
  destruct (catalog url f run) as [[[]|e] run'] eqn:Hstep.
  - assert (Hkeep : run_errors run' = run_errors run
                    /\ run_pages run' = run_pages run).
    { unfold catalogFile, bind, await, pushAsset in Hstep.
      destruct (af_stat f); [|discriminate].
      destruct (reconstructUrl URL_new url (af_relative f));
        [|discriminate].
      injection Hstep as <-. now split. }
    destruct (IH run') as [He Hp]. destruct Hkeep as [He' Hp'].
    split; congruence.
  - cbn [snd]. unfold catalogFile, bind, await, pushAsset in Hstep.
    destruct (af_stat f).
    + destruct (reconstructUrl URL_new url (af_relative f));
        [discriminate|]. injection Hstep as _ <-. now split.
    + injection Hstep as _ <-. now split.
Qed.

(** What [fetchWebsite] returns once the seed parses and the writes before
    and after the [try] succeed. *)
Lemma fetchWebsite_returns (options : FetchOptions) (w : World) (base : URL) :
  URL_new (opt_url options) = Some base ->
  w_prepare w = Ok tt ->
  w_persist w = Ok tt ->
  let run :=
    snd (scrapeAndExtract URL_new JSON_parse cheerio_load (opt_url options)
           (withDefault true (opt_extractContent options)) w
           (mkRun nil nil nil)) in
  exists result,
    fetchWebsite URL_new JSON_parse cheerio_load options w = Ok result
    /\ errors result = run_errors run
    /\ pages (siteContent result) = run_pages run
    /\ assets (siteContent result) = run_assets run
    /\ success result = (List.length (run_errors run) =? 0)%nat.
Proof.
  intros Hseed Hprep Hpersist run. unfold fetchWebsite.
  rewrite Hseed, Hprep. fold run. unfold generateLlmsTxt.
  rewrite Hseed, Hpersist.
  destruct (withDefault true (opt_generateLlmsTxt options));
    eexists; repeat split; reflexivity.
Qed.

End RunFacts.

(** X10.  The loop over the downloaded HTML files never throws and treats
    every file on its own: the pages and errors after the loop are those
    before it followed, file by file in order, by what each file adds
    taken alone, which is at most one page and at most one error; the
    assets are not touched. *)
Theorem html_files_are_independent :
  forall (URL_new : string -> option URL) (json : Type)
         (JSON_parse : string -> option json)
         (cheerio_load : string -> Cheerio)
         (url : string) (htmlFiles : list HtmlFile) (run : Run json),
    forOf htmlFiles (extractHtmlFile URL_new JSON_parse cheerio_load url) run
    = (Ok tt,
       mkRun
         (run_errors run
          +++ flat_map
                (fun f => snd (fileContribution URL_new JSON_parse
                                 cheerio_load url f)) htmlFiles)
         (run_pages run
          +++ flat_map
                (fun f => fst (fileContribution URL_new JSON_parse
                                 cheerio_load url f)) htmlFiles)
         (run_assets run))
    /\ (forall f,
          List.length (fst (fileContribution URL_new JSON_parse
                              cheerio_load url f)) <= 1
          /\ List.length (snd (fileContribution URL_new JSON_parse
                                 cheerio_load url f)) <= 1).
Proof.
  intros. split; [apply forOf_extract | intros f; apply contribution_sizes].
Qed.

(** X11.  What one downloaded file adds to a run.  A file that cannot be
    read adds one error naming it and no page.  A file whose record cannot
    be written adds its page all the same, together with one error: the
    page was pushed before the write.  A file that is read, extracted and
    written adds its page and no error. *)
Theorem file_contribution_cases :
  forall (URL_new : string -> option URL) (json : Type)
         (JSON_parse : string -> option json)
         (cheerio_load : string -> Cheerio)
         (url : string) (f : HtmlFile),
    (forall e,
        hf_readFile f = Throw e ->
        fileContribution URL_new JSON_parse cheerio_load url f
        = (nil, ("Error extracting " ++ hf_path f ++ ": " ++ e) :: nil))
    /\ (forall html pageUrl page e,
          hf_readFile f = Ok html ->
          reconstructUrl URL_new url (hf_relative f) = Ok pageUrl ->
          extractPageContent URL_new JSON_parse cheerio_load html pageUrl
          = Ok page ->
          hf_writeJson f = Throw e ->
          fileContribution URL_new JSON_parse cheerio_load url f
          = (page :: nil,
             ("Error extracting " ++ hf_path f ++ ": " ++ e) :: nil))
    /\ (forall html pageUrl page,
          hf_readFile f = Ok html ->
          reconstructUrl URL_new url (hf_relative f) = Ok pageUrl ->
          extractPageContent URL_new JSON_parse cheerio_load html pageUrl
          = Ok page ->
          hf_writeJson f = Ok tt ->
          fileContribution URL_new JSON_parse cheerio_load url f
          = (page :: nil, nil)).
Proof.
  intros URL_new json JSON_parse load url f.
  unfold fileContribution, extractHtmlFile, tryCatch, bind, await,
    pushPage, pushError, push.
  split; [|split].
  - intros e Hread. now rewrite Hread.
  - intros html pageUrl page e Hread Hurl Hpage Hwrite.
    now rewrite Hread, Hurl, Hpage, Hwrite.
  - intros html pageUrl page Hread Hurl Hpage Hwrite.
    now rewrite Hread, Hurl, Hpage, Hwrite.
Qed.

Lemma file_contribution_cases_witness :
  fileContribution exampleURL exampleJSON exampleLoad "https://example.com/"
    unreadableFile
  = (nil,
     "Error extracting /out/assets/example.com/broken.html: Error: EACCES: permission denied"
     :: nil)
  /\ exists page,
       extractPageContent exampleURL exampleJSON exampleLoad
         html_two_paragraphs "https://example.com/about" = Ok page
       /\ fileContribution exampleURL exampleJSON exampleLoad
            "https://example.com/" unwritableFile
          = (page :: nil,
             "Error extracting /out/assets/example.com/about.html: Error: ENOSPC: no space left on device"
             :: nil).
Proof.
  destruct (@file_contribution_cases exampleURL nat exampleJSON exampleLoad
              "https://example.com/" unreadableFile) as [Hread _].
  destruct (@file_contribution_cases exampleURL nat exampleJSON exampleLoad
              "https://example.com/" unwritableFile) as (_ & Hwrite & _).
  split; [exact (Hread _ eq_refl)|].
  eexists. split; [reflexivity|].
  exact (Hwrite html_two_paragraphs "https://example.com/about" _ _
           eq_refl eq_refl eq_refl eq_refl).
Defined.

(** X12.  When the scraper throws, the run still returns: with no page, no
    asset, an empty sitemap, the single error [Scraping error: ...], and
    [success] false.  The files already on disk are not looked at. *)
Theorem failed_scrape_yields_empty_result :
  forall (URL_new : string -> option URL) (json : Type)
         (JSON_parse : string -> option json)
         (cheerio_load : string -> Cheerio)
         (options : FetchOptions) (w : World) (base : URL) (e : string),
    URL_new (opt_url options) = Some base ->
    w_prepare w = Ok tt ->
    w_persist w = Ok tt ->
    w_scrape w = Throw e ->
    exists result,
      fetchWebsite URL_new JSON_parse cheerio_load options w = Ok result
      /\ pages (siteContent result) = nil
      /\ assets (siteContent result) = nil
      /\ sitemap (siteContent result) = nil
      /\ totalPages (siteContent result) = 0
      /\ totalAssets (siteContent result) = 0
      /\ errors result = ("Scraping error: " ++ e) :: nil
      /\ success result = false.
Proof.
  intros URL_new json JSON_parse load options w base e
         Hseed Hprep Hpersist Hscrape.
  unfold fetchWebsite. rewrite Hseed, Hprep.
  assert (Hrun : scrapeAndExtract URL_new JSON_parse load (opt_url options)
                   (withDefault true (opt_extractContent options)) w
                   (mkRun nil nil nil)
                 = (Ok tt, mkRun (("Scraping error: " ++ e) :: nil) nil nil)).
  { unfold scrapeAndExtract, tryCatch, bind, await. now rewrite Hscrape. }
  rewrite Hrun. cbn [snd run_errors run_pages run_assets].
  unfold generateLlmsTxt. rewrite Hseed, Hpersist.
  destruct (withDefault true (opt_generateLlmsTxt options));
    eexists; repeat split; reflexivity.
Qed.

Lemma failed_scrape_yields_empty_result_witness :
  exists result,
    fetchWebsite exampleURL exampleJSON exampleLoad exampleOptions
      offlineWorld = Ok result
    /\ pages (siteContent result) = nil
    /\ errors result
       = "Scraping error: Error: getaddrinfo ENOTFOUND example.com" :: nil
    /\ success result = false.
Proof.
  destruct (@failed_scrape_yields_empty_result exampleURL nat exampleJSON
              exampleLoad exampleOptions offlineWorld
              (mkURL "https:" "example.com" "/" "https://example.com")
              _ eq_refl eq_refl eq_refl eq_refl)
    as (result & Hres & Hp & _ & _ & _ & _ & He & Hs).
  exists result. split; [exact Hres|]. split; [exact Hp|].
  split; [exact He | exact Hs].
Defined.

Section TryFacts.

Variable URL_new : string -> option URL.
Variable json : Type.
Variable JSON_parse : string -> option json.
Variable cheerio_load : string -> Cheerio.




End TryFacts.



(** X14.  The aggregate of every returned result is consistent: the page
    and asset counts are the lengths of the two sequences, the sitemap is
    the one built from the pages and has one entry per page, the base URL
    is the seed, and the digest is the one generated from the pages, or
    the empty string when its generation is switched off. *)
Theorem result_is_consistent :
  forall (URL_new : string -> option URL) (json : Type)
         (JSON_parse : string -> option json)
         (cheerio_load : string -> Cheerio)
         (options : FetchOptions) (w : World) (result : FetchResult json),
    fetchWebsite URL_new JSON_parse cheerio_load options w = Ok result ->
    let site := siteContent result in
    totalPages site = List.length (pages site)
    /\ totalAssets site = List.length (assets site)
    /\ sitemap site = buildSitemap (pages site)
    /\ List.length (sitemap site) = totalPages site
    /\ baseUrl site = opt_url options
    /\ fetchedAt site = w_now w
    /\ result_outputDir result = opt_outputDir options
    /\ (if withDefault true (opt_generateLlmsTxt options)
        then generateLlmsTxt URL_new (pages site) (opt_url options)
             = Ok (suggestedLlmsTxt site)
        else suggestedLlmsTxt site = "").
Proof.
  intros URL_new json JSON_parse load options w result H site.
  unfold fetchWebsite in H.
  destruct (URL_new (opt_url options)) as [base|]; [|discriminate].
  destruct (w_prepare w); [|discriminate].
  destruct (if withDefault true (opt_generateLlmsTxt options)
            then _ else _) as [txt|] eqn:Hllms; [|discriminate].
  destruct (w_persist w); [|discriminate].
  injection H as <-. subst site.
  cbn [siteContent totalPages totalAssets pages assets sitemap baseUrl
       fetchedAt suggestedLlmsTxt result_outputDir].
  repeat split.
  - unfold buildSitemap.
    rewrite (Permutation_length (sort_perm byDepth _)). apply length_map.
  - destruct (withDefault true (opt_generateLlmsTxt options));
      [exact Hllms | congruence].
Qed.

Lemma result_is_consistent_witness :
  exists result,
    fetchWebsite exampleURL exampleJSON exampleLoad exampleOptions
      smallSiteWorld = Ok result
    /\ totalPages (siteContent result) = 2
    /\ List.length (sitemap (siteContent result)) = 2
    /\ totalAssets (siteContent result) = 2.
Proof.
  eexists. split; [reflexivity|].
  destruct (@result_is_consistent exampleURL nat exampleJSON exampleLoad
              exampleOptions smallSiteWorld _ eq_refl)
    as (Hp & Ha & _ & Hs & _).
  split; [exact Hp | split; [exact Hs | exact Ha]].
Defined.

(** X15.  A run whose scraper returns, whose two directory listings
    succeed and whose [stat] calls succeed returns, in order, the pages and
    errors the HTML files add one by one and one asset per listed file,
    with its reconstructed URL, its relative path, its type and its size;
    it is a success exactly when no file added an error.  With content
    extraction switched off there are no pages and no errors. *)
Theorem completed_run :
  forall (URL_new : string -> option URL) (json : Type)
         (JSON_parse : string -> option json)
         (cheerio_load : string -> Cheerio)
         (options : FetchOptions) (w : World) (base : URL)
         (resources : nat) (htmlFiles : list HtmlFile)
         (allFiles : list AssetFile),
    URL_new (opt_url options) = Some base ->
    w_prepare w = Ok tt ->
    w_persist w = Ok tt ->
    w_scrape w = Ok resources ->
    w_findHtmlFiles w = Ok htmlFiles ->
    w_findAllFiles w = Ok allFiles ->
    forallb statOk allFiles = true ->
    let visited :=
      if withDefault true (opt_extractContent options)
      then htmlFiles else nil in
    exists result,
      fetchWebsite URL_new JSON_parse cheerio_load options w = Ok result
      /\ pages (siteContent result)
         = flat_map (fun f => fst (fileContribution URL_new JSON_parse
                                     cheerio_load (opt_url options) f))
                    visited
      /\ errors result
         = flat_map (fun f => snd (fileContribution URL_new JSON_parse
                                     cheerio_load (opt_url options) f))
                    visited
      /\ assets (siteContent result) = map (assetOf base) allFiles
      /\ map localPath (assets (siteContent result))
         = map af_relative allFiles.
Proof.
  intros URL_new json JSON_parse load options w base resources htmlFiles
         allFiles Hseed Hprep Hpersist Hscrape Hhtml Hall Hstat visited.
  destruct (@fetchWebsite_returns URL_new json JSON_parse load options w base
              Hseed Hprep Hpersist)
    as (result & Hres & He & Hp & Ha & _).
  exists result. split; [exact Hres|].
  rewrite He, Hp, Ha. clear Hres He Hp Ha.
  assert (Hrun : snd (scrapeAndExtract URL_new JSON_parse load
                        (opt_url options)
                        (withDefault true (opt_extractContent options)) w
                        (mkRun nil nil nil))
                 = mkRun
                     (flat_map (fun f => snd (fileContribution URL_new
                                                JSON_parse load
                                                (opt_url options) f))
                               visited)
                     (flat_map (fun f => fst (fileContribution URL_new
                                                JSON_parse load
                                                (opt_url options) f))
                               visited)
                     (map (assetOf base) allFiles)).
  { unfold scrapeAndExtract, tryCatch, bind, await. rewrite Hscrape, Hall.
    subst visited.
    destruct (withDefault true (opt_extractContent options)).
    - rewrite Hhtml, forOf_extract.
      rewrite forOf_catalog_ok with (base := base) by assumption.
      reflexivity.
    - unfold ret. rewrite forOf_catalog_ok with (base := base) by assumption.
      reflexivity. }
  rewrite Hrun. cbn [run_errors run_pages run_assets].
  repeat split. rewrite map_map. reflexivity.
Qed.

Lemma completed_run_witness :
  exists result page1 page2,
    fetchWebsite exampleURL exampleJSON exampleLoad exampleOptions
      smallSiteWorld = Ok result
    /\ pages (siteContent result) = page1 :: page2 :: nil
    /\ url page1 = "https://example.com/"
    /\ url page2 = "https://example.com/about"
    /\ errors result
       = "Error extracting /out/assets/example.com/broken.html: Error: EACCES: permission denied"
         :: "Error extracting /out/assets/example.com/about.html: Error: ENOSPC: no space left on device"
         :: nil
    /\ assets (siteContent result)
       = mkAssetInfo "https://example.com/" "example.com/index.html" other 120
         :: mkAssetInfo "https://example.com/css/site.css"
              "example.com/css/site.css" css 300
         :: nil.
Proof.
  destruct (@completed_run exampleURL nat exampleJSON exampleLoad
              exampleOptions smallSiteWorld
              (mkURL "https:" "example.com" "/" "https://example.com")
              3 _ _ eq_refl eq_refl eq_refl eq_refl eq_refl eq_refl eq_refl)
    as (result & Hres & Hp & He & Ha & _).
  exists result. do 2 eexists.
  split; [exact Hres|]. split; [exact Hp|].
  split; [reflexivity|]. split; [reflexivity|].
  split; [exact He | exact Ha].
Defined.

(** X16.  When [stat] throws for one of the listed files, the catalogue
    stops there: the assets are those of the files listed before it, the
    pages and errors of the extraction are kept, and the exception is
    recorded as one more error, [Scraping error: ...], after them. *)
Theorem failed_stat_stops_catalogue :
  forall (URL_new : string -> option URL) (json : Type)
         (JSON_parse : string -> option json)
         (cheerio_load : string -> Cheerio)
         (options : FetchOptions) (w : World) (base : URL)
         (resources : nat) (htmlFiles : list HtmlFile)
         (before after : list AssetFile) (bad : AssetFile) (e : string),
    URL_new (opt_url options) = Some base ->
    w_prepare w = Ok tt ->
    w_persist w = Ok tt ->
    w_scrape w = Ok resources ->
    w_findHtmlFiles w = Ok htmlFiles ->
    w_findAllFiles w = Ok (before +++ bad :: after) ->
    forallb statOk before = true ->
    af_stat bad = Throw e ->
    let visited :=
      if withDefault true (opt_extractContent options)
      then htmlFiles else nil in
    exists result,
      fetchWebsite URL_new JSON_parse cheerio_load options w = Ok result
      /\ pages (siteContent result)
         = flat_map (fun f => fst (fileContribution URL_new JSON_parse
                                     cheerio_load (opt_url options) f))
                    visited
      /\ errors result
         = flat_map (fun f => snd (fileContribution URL_new JSON_parse
                                     cheerio_load (opt_url options) f))
                    visited
           +++ (("Scraping error: " ++ e) :: nil)
      /\ assets (siteContent result) = map (assetOf base) before
      /\ success result = false.
Proof.
  intros URL_new json JSON_parse load options w base resources htmlFiles
         before after bad e Hseed Hprep Hpersist Hscrape Hhtml Hall Hstat
         Hbad visited.
  destruct (@fetchWebsite_returns URL_new json JSON_parse load options w base
              Hseed Hprep Hpersist)
    as (result & Hres & He & Hp & Ha & Hs).
  exists result. split; [exact Hres|].
  rewrite He, Hp, Ha, Hs. clear Hres He Hp Ha Hs.
  assert (Hrun : snd (scrapeAndExtract URL_new JSON_parse load
                        (opt_url options)
                        (withDefault true (opt_extractContent options)) w
                        (mkRun nil nil nil))
                 = mkRun
                     (flat_map (fun f => snd (fileContribution URL_new
                                                JSON_parse load
                                                (opt_url options) f))
                               visited
                      +++ (("Scraping error: " ++ e) :: nil))
                     (flat_map (fun f => fst (fileContribution URL_new
                                                JSON_parse load
                                                (opt_url options) f))
                               visited)
                     (map (assetOf base) before)).
  { unfold scrapeAndExtract, tryCatch, bind, await. rewrite Hscrape, Hall.
    subst visited.
    destruct (withDefault true (opt_extractContent options)).
    - rewrite Hhtml, forOf_extract.
      rewrite forOf_catalog_throw with (base := base) (e := e)
        by assumption.
      reflexivity.
    - unfold ret.
      rewrite forOf_catalog_throw with (base := base) (e := e)
        by assumption.
      reflexivity. }
  rewrite Hrun. cbn [run_errors run_pages run_assets].
  repeat split. rewrite length_app. cbn [List.length].
  apply Nat.eqb_neq. lia.
Qed.

Lemma failed_stat_stops_catalogue_witness :
  exists result,
    fetchWebsite exampleURL exampleJSON exampleLoad exampleOptions
      vanishingWorld = Ok result
    /\ List.length (pages (siteContent result)) = 1
    /\ errors result
       = "Scraping error: Error: ENOENT: no such file or directory" :: nil
    /\ assets (siteContent result)
       = mkAssetInfo "https://example.com/" "example.com/index.html" other 120
         :: nil
    /\ success result = false.
Proof.
  destruct (@failed_stat_stops_catalogue exampleURL nat exampleJSON
              exampleLoad exampleOptions vanishingWorld
              (mkURL "https:" "example.com" "/" "https://example.com")
              3 _ (indexAsset :: nil) (styleAsset :: nil) vanishedAsset _
              eq_refl eq_refl eq_refl eq_refl eq_refl eq_refl eq_refl eq_refl)
    as (result & Hres & Hp & He & Ha & Hs).
  exists result. split; [exact Hres|].
  split; [rewrite Hp; reflexivity|].
  split; [exact He | split; [exact Ha | exact Hs]].
Defined.

(** X17.  With content extraction switched off no page is ever returned,
    whatever the scraper and the file system answer, and the error list
    holds at most one entry, a [Scraping error]. *)
Theorem extraction_switched_off :
  forall (URL_new : string -> option URL) (json : Type)
         (JSON_parse : string -> option json)
         (cheerio_load : string -> Cheerio)
         (options : FetchOptions) (w : World) (result : FetchResult json),
    opt_extractContent options = Some false ->
    fetchWebsite URL_new JSON_parse cheerio_load options w = Ok result ->
    pages (siteContent result) = nil
    /\ sitemap (siteContent result) = nil
    /\ (errors result = nil
        \/ exists e, errors result = ("Scraping error: " ++ e) :: nil).
Proof.
  intros URL_new json JSON_parse load options w result Hoff H.
  unfold fetchWebsite in H. rewrite Hoff in H. cbn [withDefault] in H.
  destruct (URL_new (opt_url options)) as [base|]; [|discriminate].
  destruct (w_prepare w); [|discriminate].
  assert (Hrun : exists errs asts,
             snd (scrapeAndExtract URL_new JSON_parse load (opt_url options)
                    false w (mkRun nil nil nil))
             = mkRun errs nil asts
             /\ (errs = nil
                 \/ exists e, errs = ("Scraping error: " ++ e) :: nil)).
  { unfold scrapeAndExtract, tryCatch, bind, await, ret, pushError, push.
    destruct (w_scrape w) as [n|e].
    - destruct (w_findAllFiles w) as [files|e].
      + pose proof (@forOf_catalog_frame URL_new json (opt_url options)
                      files (mkRun nil nil nil)) as [He Hp].
        destruct (forOf files (catalogFile URL_new (opt_url options))
                    (mkRun nil nil nil)) as [[[]|e] [errs pgs asts]];
          cbn [snd run_errors run_pages] in *; subst errs pgs.
        * exists nil, asts. split; [reflexivity | now left].
        * eexists _, asts. split; [reflexivity|]. right. now exists e.
      + eexists _, nil. split; [reflexivity|]. right. now exists e.
    - eexists _, nil. split; [reflexivity|]. right. now exists e. }
  destruct Hrun as (errs & asts & Hrun & Herrs). rewrite Hrun in H.
  cbn [run_errors run_pages run_assets] in H.
  destruct (if withDefault true (opt_generateLlmsTxt options)
            then _ else _); [|discriminate].
  destruct (w_persist w); [|discriminate].
  injection H as <-. cbn [siteContent pages sitemap errors].
  split; [reflexivity | split; [reflexivity | exact Herrs]].
Qed.

Lemma extraction_switched_off_witness :
  exists result,
    fetchWebsite exampleURL exampleJSON exampleLoad listingOnlyOptions
      smallSiteWorld = Ok result
    /\ pages (siteContent result) = nil
    /\ totalAssets (siteContent result) = 2.
Proof.
  eexists. split; [reflexivity|]. split; [|reflexivity].
  apply (@extraction_switched_off exampleURL nat exampleJSON exampleLoad
           listingOnlyOptions smallSiteWorld _ eq_refl eq_refl).
Defined.

(* ================================================================= *)
(** ** The directory walks *)

Section WalkFacts.

Variable path_join : string -> string -> string.

Lemma forItems_app (visit : Dirent -> outcome (list string))
    (items : list Dirent) (files : list string) :
  forItems visit items files
  = match forItems visit items nil with
    | Ok found => Ok (files +++ found)
    | Throw e => Throw e
    end.
Proof.
  revert files; induction items as [|item rest IH]; intros files.
  - cbn. now rewrite app_nil_r.
  - cbn [forItems]. destruct (visit item) as [found|e]; [|reflexivity].
    rewrite (IH (files +++ found)), (IH (nil +++ found)).
    destruct (forItems visit rest nil); [|reflexivity].
    cbn [app]. now rewrite app_assoc.
Qed.

Lemma Subsequence_refl (A : Type) (l : list A) : Subsequence l l.
Proof. induction l; now constructor. Qed.

Lemma Subsequence_app (A : Type) (s1 l1 s2 l2 : list A) :
  Subsequence s1 l1 -> Subsequence s2 l2 ->
  Subsequence (s1 +++ s2) (l1 +++ l2).
Proof.
  intros H1 H2. induction H1; cbn [app]; try now constructor.
  exact H2.
Qed.

Lemma forItems_agree (items : list Dirent) (dir : string) :
  Forall (fun item => forall d, walksAgree path_join d item) items ->
  match forItems (visitHtml path_join dir) items nil,
        forItems (visitAll path_join dir) items nil with
  | Ok html, Ok all => Subsequence html all
  | Throw e1, Throw e2 => e1 = e2
  | _, _ => False
  end.
Proof.
  induction items as [|item rest IH]; intros Hall.
  - cbn. constructor.
  - inversion Hall as [|? ? Hitem Hrest]; subst.
    specialize (IH Hrest). specialize (Hitem dir).
    unfold walksAgree in Hitem. cbn [forItems].
    destruct (visitHtml path_join dir item) as [h|e1],
             (visitAll path_join dir item) as [a|e2];
      try contradiction; [|exact Hitem].
    rewrite (forItems_app _ rest (nil +++ h)),
            (forItems_app _ rest (nil +++ a)).
    destruct (forItems (visitHtml path_join dir) rest nil) as [h'|e1],
             (forItems (visitAll path_join dir) rest nil) as [a'|e2];
      try contradiction; [|exact IH].
    cbn [app]. now apply Subsequence_app.
Qed.

Lemma Dirent_nested_ind (P : Dirent -> Prop) :
  (forall name, P (FileEnt name)) ->
  (forall name e, P (DirEnt name (Throw e))) ->
  (forall name items, Forall P items -> P (DirEnt name (Ok items))) ->
  forall item, P item.
Proof.
  intros Hfile Hthrow Hdir. fix ind 1. intros [name|name [items|e]].
  - apply Hfile.
  - apply Hdir. induction items as [|item rest IH]; constructor.
    + apply ind.
    + exact IH.
  - apply Hthrow.
Qed.

Lemma walks_agree (item : Dirent) :
  forall dir, walksAgree path_join dir item.
Proof.
  induction item as [name|name e|name items IH] using Dirent_nested_ind;
    intros dir; unfold walksAgree; cbn [visitHtml visitAll].
  - destruct (JS.endsWith name ".html" || JS.endsWith name ".htm").
    + apply Subsequence_refl.
    + repeat constructor.
  - reflexivity.
  - now apply forItems_agree.
Qed.

Lemma forItems_all_counts (items : list Dirent) (dir : string) :
  Forall (fun item =>
            forall d,
              if readable item
              then exists all,
                     visitAll path_join d item = Ok all
                     /\ List.length all = fileCount item
              else exists e, visitAll path_join d item = Throw e) items ->
  if forallb readable items
  then exists all,
         forItems (visitAll path_join dir) items nil = Ok all
         /\ List.length all
            = fold_right (fun it n => fileCount it + n) 0 items
  else exists e, forItems (visitAll path_join dir) items nil = Throw e.
Proof.
  induction items as [|item rest IH]; intros Hall.
  - cbn. now exists nil.
  - inversion Hall as [|? ? Hitem Hrest]; subst.
    specialize (IH Hrest). specialize (Hitem dir).
    cbn [forallb forItems fold_right].
    destruct (readable item).
    + destruct Hitem as (found & -> & Hlen).
      rewrite (forItems_app _ rest (nil +++ found)). cbn [andb app].
      destruct (forallb readable rest).
      * destruct IH as (more & -> & Hmore). eexists. split; [reflexivity|].
        rewrite length_app. congruence.
      * destruct IH as (e & ->). now exists e.
    + destruct Hitem as (e & ->). now exists e.
Qed.

Lemma visitAll_counts (item : Dirent) :
  forall dir,
    if readable item
    then exists all,
           visitAll path_join dir item = Ok all
           /\ List.length all = fileCount item
    else exists e, visitAll path_join dir item = Throw e.
Proof.
  induction item as [name|name e|name items IH] using Dirent_nested_ind;
    intros dir; cbn [readable visitAll fileCount].
  - eexists. split; reflexivity.
  - now exists e.
  - now apply forItems_all_counts.
Qed.

Hypothesis join_keeps_extension :
  forall dir name suffix,
    suffix = ".html" \/ suffix = ".htm" ->
    JS.endsWith name suffix = true ->
    JS.endsWith (path_join dir name) suffix = true.

(** A path that [findHtmlFiles] may return. *)
Lemma forItems_html_suffix (items : list Dirent) (dir : string) :
  Forall (fun item =>
            forall d html,
              visitHtml path_join d item = Ok html ->
              Forall (fun p => JS.endsWith p ".html" || JS.endsWith p ".htm"
                               = true) html) items ->
  forall html,
    forItems (visitHtml path_join dir) items nil = Ok html ->
    Forall (fun p => JS.endsWith p ".html" || JS.endsWith p ".htm" = true)
           html.
Proof.
  induction items as [|item rest IH]; intros Hall html Hres.
  - cbn in Hres. injection Hres as <-. constructor.
  - inversion Hall as [|? ? Hitem Hrest]; subst.
    cbn [forItems] in Hres.
    destruct (visitHtml path_join dir item) as [found|e] eqn:Hv;
      [|discriminate].
    rewrite (forItems_app _ rest (nil +++ found)) in Hres.
    destruct (forItems (visitHtml path_join dir) rest nil) as [more|e]
      eqn:Hmore; [|discriminate].
    injection Hres as <-. cbn [app]. apply Forall_app. split.
    + exact (Hitem dir found Hv).
    + exact (IH Hrest more eq_refl).
Qed.

Lemma visitHtml_suffix (item : Dirent) :
  forall dir html,
    visitHtml path_join dir item = Ok html ->
    Forall (fun p => JS.endsWith p ".html" || JS.endsWith p ".htm" = true)
           html.
Proof.
  induction item as [name|name e|name items IH] using Dirent_nested_ind;
    intros dir html Hres; cbn [visitHtml] in Hres.
  - destruct (JS.endsWith name ".html") eqn:H1.
    + injection Hres as <-. repeat constructor.
      now rewrite (join_keeps_extension dir _ (or_introl eq_refl) H1).
    + destruct (JS.endsWith name ".htm") eqn:H2; cbn [orb] in Hres;
        injection Hres as <-; repeat constructor.
      rewrite (join_keeps_extension dir _ (or_intror eq_refl) H2).
      apply orb_true_r.
  - discriminate.
  - apply forItems_html_suffix
      with (items := items) (dir := path_join dir name); assumption.
Qed.

End WalkFacts.

Lemma joinPath_keeps_suffix (dir name suffix : string) :
  JS.endsWith name suffix = true ->
  JS.endsWith (joinPath dir name) suffix = true.
Proof.
  intros H. apply endsWith_iff in H as [pre ->]. apply endsWith_iff.
  exists (dir ++ "/" ++ pre). unfold joinPath.
  now rewrite !append_assoc.
Qed.

(** X18.  The two walks read the same directories: on one tree
    [findHtmlFiles] and [findAllFiles] either both throw, with the same
    exception, or both return, and then the HTML files are among all
    files, in the same order. *)
Theorem findHtmlFiles_among_all :
  forall (path_join : string -> string -> string) (dir : string)
         (readdir : outcome (list Dirent)),
    match findHtmlFiles path_join dir readdir,
          findAllFiles path_join dir readdir with
    | Ok html, Ok all => Subsequence html all
    | Throw e1, Throw e2 => e1 = e2
    | _, _ => False
    end.
Proof.
  intros path_join dir [items|e]; cbn [findHtmlFiles findAllFiles];
    [|reflexivity].
  apply forItems_agree. apply Forall_forall. intros item _.
  apply walks_agree.
Qed.

(** X19.  Every path [findHtmlFiles] returns ends in [.html] or [.htm],
    given that joining a directory and a name keeps an [.html] or [.htm]
    at the end of the name. *)
Theorem findHtmlFiles_only_html :
  forall (path_join : string -> string -> string),
    (forall dir name suffix,
        suffix = ".html" \/ suffix = ".htm" ->
        JS.endsWith name suffix = true ->
        JS.endsWith (path_join dir name) suffix = true) ->
    forall (dir : string) (readdir : outcome (list Dirent))
           (html : list string),
      findHtmlFiles path_join dir readdir = Ok html ->
      Forall (fun p => JS.endsWith p ".html" || JS.endsWith p ".htm" = true)
             html.
Proof.
  intros path_join Hjoin dir [items|e] html Hres;
    cbn [findHtmlFiles] in Hres; [|discriminate].
  apply forItems_html_suffix
    with (path_join := path_join) (items := items) (dir := dir);
    [|assumption].
  apply Forall_forall. intros item _ d found.
  now apply visitHtml_suffix.
Qed.

Lemma findHtmlFiles_only_html_witness :
  findHtmlFiles joinPath "/out/assets" (Ok exampleListing)
  = Ok ("/out/assets/example.com/index.html"
        :: "/out/assets/example.com/about.htm" :: nil)
  /\ Forall (fun p => JS.endsWith p ".html" || JS.endsWith p ".htm" = true)
            ("/out/assets/example.com/index.html"
             :: "/out/assets/example.com/about.htm" :: nil).
Proof.
  split; [reflexivity|].
  apply (@findHtmlFiles_only_html joinPath
           (fun dir name suffix _ => @joinPath_keeps_suffix dir name suffix)
           "/out/assets" (Ok exampleListing) _ eq_refl).
Defined.

(** X20.  [findAllFiles] returns exactly when every directory below the
    start can be listed, and then with one path for every entry that is
    not a directory; when some directory cannot be listed it throws. *)
Theorem findAllFiles_counts :
  forall (path_join : string -> string -> string) (dir : string)
         (items : list Dirent),
    (forallb readable items = true ->
     exists all,
       findAllFiles path_join dir (Ok items) = Ok all
       /\ List.length all
          = fold_right (fun it n => fileCount it + n) 0 items)
    /\ (forallb readable items = false ->
        exists e, findAllFiles path_join dir (Ok items) = Throw e).
Proof.
  intros path_join dir items. cbn [findAllFiles].
  assert (H := @forItems_all_counts path_join items dir).
  assert (Hall : Forall
                   (fun item =>
                      forall d,
                        if readable item
                        then exists all,
                               visitAll path_join d item = Ok all
                               /\ List.length all = fileCount item
                        else exists e,
                               visitAll path_join d item = Throw e) items).
  { apply Forall_forall. intros item _. apply visitAll_counts. }
  specialize (H Hall).
  split; intros Hr; rewrite Hr in H; exact H.
Qed.

Lemma findAllFiles_counts_witness :
  findAllFiles joinPath "/out/assets" (Ok exampleListing)
  = Ok ("/out/assets/example.com/index.html"
        :: "/out/assets/example.com/css/site.css"
        :: "/out/assets/example.com/about.htm" :: nil)
  /\ (exists all,
         findAllFiles joinPath "/out/assets" (Ok exampleListing) = Ok all
         /\ List.length all = 3)
  /\ exists e,
       findAllFiles joinPath "/out/assets" (Ok lockedListing) = Throw e.
Proof.
  split; [reflexivity|].
  destruct (findAllFiles_counts joinPath "/out/assets" exampleListing)
    as [Hok _].
  destruct (findAllFiles_counts joinPath "/out/assets" lockedListing)
    as [_ Hlocked].
  split; [exact (Hok eq_refl) | exact (Hlocked eq_refl)].
Defined.

(* ================================================================= *)
(** ** The Markdown report *)

Section ReportFacts.

Variable json : Type.

Lemma levelsPositive_forallb (page : PageContent json) :
  levelsPositive page = forallb levelPositive (headings page).
Proof. reflexivity. Qed.

Lemma headingIndent_ok (h : Heading) :
  levelPositive h = true ->
  headingIndent (heading_level h) = Ok (indentText (heading_level h)).
Proof.
  unfold levelPositive, headingIndent, indentText.
  destruct (heading_level h) as [[|n]|]; intros H;
    [discriminate | reflexivity | reflexivity].
Qed.

Lemma headingIndent_throw (h : Heading) :
  levelPositive h = false -> headingIndent (heading_level h) = Throw ERR_REPEAT.
Proof.
  unfold levelPositive, headingIndent.
  destruct (heading_level h) as [[|n]|]; intros H;
    [reflexivity | discriminate | discriminate].
Qed.

Lemma pushStructure_ok (hs : list Heading) (lines : list string) :
  forallb levelPositive hs = true ->
  pushStructure hs lines
  = Ok (lines +++ map (fun h => indentText (heading_level h) ++ "- "
                                ++ heading_text h) hs).
Proof.
  revert lines; induction hs as [|h hs IH]; intros lines Hall.
  - cbn. now rewrite app_nil_r.
  - cbn [forallb] in Hall. apply andb_true_iff in Hall as [Hh Hall].
    cbn [pushStructure]. rewrite (headingIndent_ok _ Hh), (IH _ Hall).
    unfold push. cbn [map]. now rewrite <- app_assoc.
Qed.

Lemma pushStructure_throw (hs : list Heading) (lines : list string) :
  forallb levelPositive hs = false ->
  pushStructure hs lines = Throw ERR_REPEAT.
Proof.
  revert lines; induction hs as [|h hs IH]; intros lines Hall;
    [discriminate|].
  cbn [forallb] in Hall. cbn [pushStructure].
  destruct (levelPositive h) eqn:Hh.
  - rewrite (headingIndent_ok _ Hh). now apply IH.
  - now rewrite (headingIndent_throw _ Hh).
Qed.

Lemma pushPageReport_ok (lines : list string) (page : PageContent json) :
  levelsPositive page = true ->
  pushPageReport lines page = Ok (lines +++ reportBlock page).
Proof.
  intros Hpos. rewrite levelsPositive_forallb in Hpos.
  unfold pushPageReport, reportBlock.
  destruct (headings page) as [|h hs] eqn:Hh;
    cbn [List.length Nat.ltb Nat.leb].
  - cbv beta iota zeta.
    rewrite (fold_left_appends
               (fun lines p => push (push lines p) "")
               (fun p => p :: "" :: nil))
      by (intros; unfold push; now rewrite <- app_assoc).
    rewrite (fold_left_appends
               (fun lines img =>
                  push lines ("- " ++ JS.or (image_alt img) "No alt text"
                              ++ ": " ++ image_src img))
               (fun img => ("- " ++ JS.or (image_alt img) "No alt text"
                            ++ ": " ++ image_src img) :: nil))
      by reflexivity.
    rewrite flat_map_singleton. unfold push.
    destruct (description page) as [d|]; [destruct (JS.truthy d)|];
      destruct (paragraphs page) as [|p ps], (images page) as [|i imgs];
      cbn [List.length Nat.ltb Nat.leb];
      f_equal; repeat (rewrite <- app_assoc; cbn [app]); reflexivity.
  - rewrite (pushStructure_ok _ _ Hpos). cbv beta iota zeta.
    rewrite (fold_left_appends
               (fun lines p => push (push lines p) "")
               (fun p => p :: "" :: nil))
      by (intros; unfold push; now rewrite <- app_assoc).
    rewrite (fold_left_appends
               (fun lines img =>
                  push lines ("- " ++ JS.or (image_alt img) "No alt text"
                              ++ ": " ++ image_src img))
               (fun img => ("- " ++ JS.or (image_alt img) "No alt text"
                            ++ ": " ++ image_src img) :: nil))
      by reflexivity.
    rewrite flat_map_singleton. unfold push.
    destruct (description page) as [d|]; [destruct (JS.truthy d)|];
      destruct (paragraphs page) as [|p ps], (images page) as [|i imgs];
      cbn [List.length Nat.ltb Nat.leb];
      f_equal; repeat (rewrite <- app_assoc; cbn [app]); reflexivity.
Qed.

Lemma pushPageReport_throw (lines : list string) (page : PageContent json) :
  levelsPositive page = false ->
  pushPageReport lines page = Throw ERR_REPEAT.
Proof.
  intros Hpos. rewrite levelsPositive_forallb in Hpos.
  unfold pushPageReport.
  destruct (headings page) as [|h hs] eqn:Hh; [discriminate|].
  cbn [List.length Nat.ltb Nat.leb].
  now rewrite (pushStructure_throw _ _ Hpos).
Qed.

Lemma pushPageReports_ok (pages : list (PageContent json))
    (lines : list string) :
  forallb (@levelsPositive json) pages = true ->
  pushPageReports pages lines
  = Ok (lines +++ flat_map (@reportBlock json) pages).
Proof.
  revert lines; induction pages as [|page rest IH]; intros lines Hall.
  - cbn. now rewrite app_nil_r.
  - cbn [forallb] in Hall. apply andb_true_iff in Hall as [Hp Hall].
    cbn [pushPageReports flat_map].
    rewrite (pushPageReport_ok _ _ Hp), (IH _ Hall).
    now rewrite <- app_assoc.
Qed.

Lemma pushPageReports_throw (pages : list (PageContent json))
    (lines : list string) :
  forallb (@levelsPositive json) pages = false ->
  pushPageReports pages lines = Throw ERR_REPEAT.
Proof.
  revert lines; induction pages as [|page rest IH]; intros lines Hall;
    [discriminate|].
  cbn [forallb] in Hall. cbn [pushPageReports].
  destruct (levelsPositive page) eqn:Hp.
  - rewrite (pushPageReport_ok _ _ Hp). now apply IH.
  - now rewrite (pushPageReport_throw _ _ Hp).
Qed.

End ReportFacts.

(** X21.  When no heading has level 0, the Markdown report is its header
    (hostname, time stamp, page count) followed by one block per page in
    input order: title, URL, description when present, the headings each
    indented by two spaces per level above 1, the first ten paragraphs
    word for word with a blank line after each, the images with
    [No alt text] for a missing alternative text, and a rule. *)
Theorem generateMarkdownReport_layout :
  forall (URL_new : string -> option URL) (json : Type)
         (pages : list (PageContent json)) (baseUrl now : string)
         (base : URL),
    URL_new baseUrl = Some base ->
    forallb (@levelsPositive json) pages = true ->
    generateMarkdownReport URL_new pages baseUrl now
    = Ok (JS.join JS.LF
            (reportHeader (hostname base) now (List.length pages)
             +++ flat_map (@reportBlock json) pages)).
Proof.
  intros URL_new json pages baseUrl now base Hbase Hpos.
  unfold generateMarkdownReport. rewrite Hbase.
  rewrite (pushPageReports_ok _ _ Hpos). reflexivity.
Qed.

Lemma generateMarkdownReport_layout_witness :
  generateMarkdownReport exampleURL (pageTwelve :: pageBare :: nil)
    "https://example.com/" "2024-01-01T00:00:00.000Z"
  = Ok (JS.join JS.LF
          ("# Website Content: example.com" :: ""
           :: "Fetched: 2024-01-01T00:00:00.000Z"
           :: "Total Pages: 2" :: "" :: "---" :: ""
           :: "## Docs" :: "" :: "**URL:** https://example.com/docs/"
           :: "**Description:** All the documents" :: ""
           :: "### Structure" :: "- Docs" :: "    - Deep" :: ""
           :: "### Content"
           :: "p01" :: "" :: "p02" :: "" :: "p03" :: "" :: "p04" :: ""
           :: "p05" :: "" :: "p06" :: "" :: "p07" :: "" :: "p08" :: ""
           :: "p09" :: "" :: "p10" :: ""
           :: "### Images" :: "- No alt text: /logo.png" :: ""
           :: "---" :: ""
           :: "## About" :: "" :: "**URL:** https://example.com/about" :: ""
           :: "---" :: "" :: nil)).
Proof.
  exact (@generateMarkdownReport_layout exampleURL nat
           (pageTwelve :: pageBare :: nil) "https://example.com/"
           "2024-01-01T00:00:00.000Z"
           (mkURL "https:" "example.com" "/" "https://example.com")
           eq_refl eq_refl).
Defined.

(** X22.  A heading of level 0 anywhere in the pages makes the whole report
    fail: [repeat] is asked for a negative count and throws, and nothing
    catches it. *)
Theorem generateMarkdownReport_level_zero :
  forall (URL_new : string -> option URL) (json : Type)
         (pages : list (PageContent json)) (baseUrl now : string)
         (base : URL),
    URL_new baseUrl = Some base ->
    forallb (@levelsPositive json) pages = false ->
    generateMarkdownReport URL_new pages baseUrl now = Throw ERR_REPEAT.
Proof.
  intros URL_new json pages baseUrl now base Hbase Hpos.
  unfold generateMarkdownReport. rewrite Hbase.
  now rewrite (pushPageReports_throw _ _ Hpos).
Qed.

Lemma generateMarkdownReport_level_zero_witness :
  generateMarkdownReport exampleURL (pageBare :: pageLevelZero :: nil)
    "https://example.com/" "2024-01-01T00:00:00.000Z"
  = Throw "RangeError: Invalid count value: -1".
Proof.
  exact (@generateMarkdownReport_level_zero exampleURL nat
           (pageBare :: pageLevelZero :: nil) "https://example.com/"
           "2024-01-01T00:00:00.000Z"
           (mkURL "https:" "example.com" "/" "https://example.com")
           eq_refl eq_refl).
Defined.

(* ================================================================= *)
(** ** The command line *)

(** X23.  After the normalisation of the [fetch] command the URL begins
    with [http://] or [https://]: a URL that already does is left alone,
    any other gets [https://] in front, and normalising twice changes
    nothing more. *)
Theorem normalizeUrl_scheme :
  forall url : string,
    (JS.startsWith (normalizeUrl url) "http://" = true
     \/ JS.startsWith (normalizeUrl url) "https://" = true)
    /\ normalizeUrl (normalizeUrl url) = normalizeUrl url
    /\ (JS.startsWith url "http://" = true
        \/ JS.startsWith url "https://" = true ->
        normalizeUrl url = url)
    /\ (JS.startsWith url "http://" = false ->
        JS.startsWith url "https://" = false ->
        normalizeUrl url = "https://" ++ url).
Proof.
  intros url.
  assert (Hscheme : JS.startsWith (normalizeUrl url) "http://" = true
                    \/ JS.startsWith (normalizeUrl url) "https://" = true).
  { unfold normalizeUrl.
    destruct (JS.startsWith url "http://") eqn:H1; cbn [negb andb];
      [now left|].
    destruct (JS.startsWith url "https://") eqn:H2; cbn [negb];
      right; [exact H2 | apply startsWith_app]. }
  assert (Hkeep : forall u,
             JS.startsWith u "http://" = true
             \/ JS.startsWith u "https://" = true ->
             normalizeUrl u = u).
  { intros u [H|H]; unfold normalizeUrl; rewrite H; cbn [negb andb];
      [reflexivity | now rewrite andb_false_r]. }
  split; [exact Hscheme|]. split; [now apply Hkeep|].
  split; [apply Hkeep|].
  intros H1 H2. unfold normalizeUrl. now rewrite H1, H2.
Qed.

Lemma normalizeUrl_scheme_witness :
  normalizeUrl "example.com" = "https://example.com"
  /\ normalizeUrl "http://example.com" = "http://example.com".
Proof.
  destruct (normalizeUrl_scheme "example.com") as (_ & _ & _ & Hadd).
  destruct (normalizeUrl_scheme "http://example.com")
    as (_ & _ & Hkeep & _).
  split; [exact (Hadd eq_refl eq_refl) | apply Hkeep; left; reflexivity].
Defined.

Section CountFacts.

Lemma AssetType_eqb_eq (a b : AssetType) : AssetType_eqb a b = true <-> a = b.
Proof. destruct a, b; cbn; split; intros H; congruence. Qed.

Lemma AssetType_eqb_refl (a : AssetType) : AssetType_eqb a a = true.
Proof. now destruct a. Qed.

Lemma AssetType_eqb_sym (a b : AssetType) :
  AssetType_eqb a b = AssetType_eqb b a.
Proof. now destruct a, b. Qed.

Lemma getCount_setCount (acc : TypeCounts) (type other_ : AssetType)
    (n : nat) :
  getCount (setCount acc type n) other_
  = if AssetType_eqb type other_ then Some n else getCount acc other_.
Proof.
  induction acc as [|[t m] rest IH]; cbn [setCount getCount].
  - reflexivity.
  - destruct (AssetType_eqb t type) eqn:Ht; cbn [getCount].
    + apply AssetType_eqb_eq in Ht; subst t.
      now destruct (AssetType_eqb type other_).
    + destruct (AssetType_eqb t other_) eqn:Ho; [|exact IH].
      apply AssetType_eqb_eq in Ho; subst t.
      rewrite AssetType_eqb_sym, Ht. reflexivity.
Qed.

Lemma getCount_None (acc : TypeCounts) (type : AssetType) :
  getCount acc type = None <-> ~ In type (map fst acc).
Proof.
  induction acc as [|[t m] rest IH]; cbn [getCount map fst In].
  - tauto.
  - destruct (AssetType_eqb t type) eqn:Ht.
    + apply AssetType_eqb_eq in Ht. split; [discriminate|tauto].
    + assert (t <> type) by (intros ->; now rewrite AssetType_eqb_refl in Ht).
      tauto.
Qed.

Lemma keys_setCount (acc : TypeCounts) (type : AssetType) (n : nat) :
  map fst (setCount acc type n)
  = match getCount acc type with
    | Some _ => map fst acc
    | None => map fst acc +++ (type :: nil)
    end.
Proof.
  induction acc as [|[t m] rest IH]; cbn [setCount getCount map fst app].
  - reflexivity.
  - destruct (AssetType_eqb t type) eqn:Ht; cbn [map fst].
    + reflexivity.
    + rewrite IH. now destruct (getCount rest type).
Qed.

Lemma totalCount_setCount (acc : TypeCounts) (type : AssetType) (n : nat) :
  totalCount (setCount acc type n)
  + match getCount acc type with Some m => m | None => 0 end
  = totalCount acc + n.
Proof.
  induction acc as [|[t m] rest IH];
    cbn [setCount getCount totalCount fold_right snd].
  - lia.
  - destruct (AssetType_eqb t type); cbn [totalCount fold_right snd].
    + lia.
    + fold (totalCount (setCount rest type n)). fold (totalCount rest). lia.
Qed.

Lemma countType_app (type : AssetType) (seen : list AssetInfo)
    (a : AssetInfo) :
  countType type (seen +++ (a :: nil))
  = countType type seen
    + (if AssetType_eqb (asset_type a) type then 1 else 0).
Proof.
  unfold countType. rewrite filter_app, length_app. cbn [filter].
  now destruct (AssetType_eqb (asset_type a) type).
Qed.

Lemma countAsset_matches (acc : TypeCounts) (seen : list AssetInfo)
    (a : AssetInfo) :
  countsMatch acc seen /\ totalCount acc = List.length seen ->
  countsMatch (countAsset acc a) (seen +++ (a :: nil))
  /\ totalCount (countAsset acc a) = List.length (seen +++ (a :: nil)).
Proof.
  intros [[Hnodup Hcounts] Htotal]. unfold countAsset.
  pose proof (Hcounts (asset_type a)) as Hcur.
  pose proof (totalCount_setCount acc (asset_type a)
                (match getCount acc (asset_type a) with
                 | Some n => if (n =? 0)%nat then 0 else n
                 | None => 0
                 end + 1)) as Hsum.
  split; [split|].
  - rewrite keys_setCount.
    destruct (getCount acc (asset_type a)) eqn:Hget; [exact Hnodup|].
    apply getCount_None in Hget.
    apply NoDup_app; [exact Hnodup | repeat constructor; intros [] |].
    intros x Hx [<-|[]]. contradiction.
  - intros type. rewrite getCount_setCount, countType_app.
    destruct (AssetType_eqb (asset_type a) type) eqn:Ht.
    + apply AssetType_eqb_eq in Ht; subst type. rewrite Hcur.
      destruct (countType (asset_type a) seen) as [|k] eqn:Hk; cbn;
        try reflexivity; f_equal; lia.
    + rewrite Nat.add_0_r. apply Hcounts.
  - rewrite length_app. cbn [List.length]. rewrite Hcur in Hsum |- *.
    destruct (countType (asset_type a) seen) as [|k];
      cbn [Nat.eqb] in Hsum |- *; lia.
Qed.

End CountFacts.

(** X24.  The asset breakdown of the [analyze] command lists every asset
    type once, each with the number of assets of that type, never with a
    zero, and the counts add up to the number of assets. *)
Theorem assetTypes_counts :
  forall assets : list AssetInfo,
    NoDup (map fst (assetTypes assets))
    /\ (forall type,
          getCount (assetTypes assets) type
          = if (countType type assets =? 0)%nat then None
            else Some (countType type assets))
    /\ totalCount (assetTypes assets) = List.length assets.
Proof.
  intros assets. unfold assetTypes.
  enough (Hgen : forall acc seen,
             countsMatch acc seen /\ totalCount acc = List.length seen ->
             countsMatch (fold_left countAsset assets acc) (seen +++ assets)
             /\ totalCount (fold_left countAsset assets acc)
                = List.length (seen +++ assets)).
  { destruct (Hgen nil nil) as [[Hnodup Hcounts] Htotal].
    - split; [split; [constructor | reflexivity] | reflexivity].
    - now repeat split. }
  induction assets as [|a rest IH]; intros acc seen Hinv.
  - cbn [fold_left]. now rewrite app_nil_r.
  - cbn [fold_left].
    replace (seen +++ a :: rest) with ((seen +++ (a :: nil)) +++ rest)
      by (now rewrite <- app_assoc).
    apply IH. now apply countAsset_matches.
Qed.

(** X25.  The [fetch] command makes no [console.log] call about an empty
    error list; otherwise one call for a heading with the number of errors,
    one call for each of the first five errors, and, when there are more
    than five, one closing call with the number of errors left out: at
    most seven calls in all.  (The heading begins with a line feed and an
    error may contain one, so the calls can print more lines than that.) *)
Theorem printWarnings_lines :
  forall (yellow : string -> string) (errors : list string),
    let n := List.length errors in
    let heading := yellow (JS.LF ++ "Warnings (" ++ showNat n ++ "):") in
    (n = 0 -> printWarnings yellow errors = nil)
    /\ (0 < n -> n <= 5 ->
        printWarnings yellow errors
        = heading :: map (fun e => "  - " ++ e) errors)
    /\ (5 < n ->
        printWarnings yellow errors
        = heading :: map (fun e => "  - " ++ e) (firstn 5 errors)
          +++ (("  ... and " ++ showNat (n - 5) ++ " more") :: nil))
    /\ List.length (printWarnings yellow errors) <= 7.
Proof.
  intros yellow errors n heading.
  assert (Hshape : printWarnings yellow errors
                   = if (0 <? n)%nat
                     then heading
                          :: map (fun e => "  - " ++ e) (firstn 5 errors)
                          +++ (if (5 <? n)%nat
                               then ("  ... and " ++ showNat (n - 5)
                                     ++ " more") :: nil
                               else nil)
                     else nil).
  { unfold printWarnings. fold n.
    destruct (0 <? n)%nat; [|reflexivity].
    rewrite (fold_left_appends
               (fun out e => push out ("  - " ++ e))
               (fun e => ("  - " ++ e) :: nil)) by reflexivity.
    rewrite flat_map_singleton. unfold push. fold heading.
    destruct (5 <? n)%nat; cbn [app]; rewrite ?app_nil_r; reflexivity. }
  rewrite Hshape. split; [|split; [|split]].
  - intros ->. reflexivity.
  - intros Hpos Hle.
    apply Nat.ltb_lt in Hpos as ->. apply Nat.ltb_ge in Hle as Hge.
    rewrite Hge, app_nil_r. now rewrite firstn_all2 by exact Hle.
  - intros Hgt. assert (Hpos : (0 <? n)%nat = true) by (apply Nat.ltb_lt; lia).
    apply Nat.ltb_lt in Hgt as ->. now rewrite Hpos.
  - destruct (0 <? n)%nat; [|cbn; lia].
    cbn [List.length]. rewrite length_app, length_map, length_firstn.
    destruct (5 <? n)%nat; cbn [List.length]; lia.
Qed.

Lemma printWarnings_lines_witness :
  printWarnings (fun s => s) sixErrors
  = (JS.LF ++ "Warnings (6):")
    :: "  - e1" :: "  - e2" :: "  - e3" :: "  - e4" :: "  - e5"
    :: "  ... and 1 more" :: nil.
Proof.
  destruct (printWarnings_lines (fun s => s) sixErrors)
    as (_ & _ & Hmore & _).
  apply Hmore. apply Nat.ltb_lt. reflexivity.
Defined.
